(** * ecodemand: a frequency-invariant, step-based cpufreq governor

    Shallow embedding of [drivers/cpufreq/cpufreq_ecodemand.c] and the
    properties of its control loop: load sampling, load normalisation,
    powersave bias, and the conservative step-up / step-down controller.

    Machine integers are modelled as [Z] with the wrap-around of the C
    types written out ([u64], [unsigned int], [int]).  The two operations
    of the tick that can trap, a division and an array access, are
    modelled in an error monad. *)

From Stdlib Require Import ZArith Lia.
From stdpp Require Import base tactics option list.

Local Open Scope Z_scope.

(** ** Machine arithmetic *)

Module Mach.

Definition U32_MOD : Z := Eval cbv in 2 ^ 32.
Definition U64_MOD : Z := Eval cbv in 2 ^ 64.
Definition INT_MIN : Z := Eval cbv in - 2 ^ 31.
Definition INT_MAX : Z := Eval cbv in 2 ^ 31 - 1.

(** Conversion to [unsigned int] / [u32]. *)
Definition u32 (x : Z) : Z := x mod U32_MOD.

(** Conversion to [u64]. *)
Definition u64 (x : Z) : Z := x mod U64_MOD.

(** Conversion to [int]; the kernel is built with wrapping signed
    arithmetic. *)
Definition s32 (x : Z) : Z := (x - INT_MIN) mod U32_MOD + INT_MIN.

Definition is_u32 (x : Z) : Prop := 0 <= x < U32_MOD.
Definition is_u64 (x : Z) : Prop := 0 <= x < U64_MOD.
Definition is_s32 (x : Z) : Prop := INT_MIN <= x <= INT_MAX.

End Mach.
Import Mach.

(** ** Faults and the error monad *)

Inductive fault : Type :=
  | DivideByZero
  | OutOfBounds.

Inductive result (A : Type) : Type :=
  | Ok (a : A)
  | Fault (f : fault).
Arguments Ok {A} a.
Arguments Fault {A} f.

#[global] Instance result_ret : MRet result := fun A a => Ok a.
#[global] Instance result_bind : MBind result := fun A B k c =>
  match c with
  | Ok a => k a
  | Fault f => Fault f
  end.

(** Unsigned division as the hardware performs it: a zero divisor traps. *)
Definition udiv (a b : Z) : result Z :=
  if b =? 0 then Fault DivideByZero else Ok (a / b).

(** [div64_u64(dividend, divisor)] of the kernel's math64 interface. *)
Definition div64_u64 (dividend divisor : Z) : result Z := udiv dividend divisor.

(** ** Data model *)

Record eco_cpu_stats : Type := {
  prev_total_time : Z;   (* u64 *)
  prev_busy_time : Z     (* u64 *)
}.

Record eco_tuners : Type := {
  up_threshold : Z;          (* unsigned int *)
  down_threshold : Z;        (* unsigned int *)
  freq_step : Z;             (* unsigned int *)
  sampling_rate : Z;         (* unsigned int, in us *)
  sampling_down_factor : Z;  (* unsigned int *)
  powersave_bias : Z         (* int, -100 to 100 *)
}.

(** The fields of [struct cpufreq_policy] the governor reads. *)
Record cpufreq_policy : Type := {
  cpus : list nat;   (* the policy's CPU mask, in iteration order *)
  cur : Z;           (* unsigned int, kHz *)
  min : Z;           (* unsigned int, kHz *)
  max : Z            (* unsigned int, kHz *)
}.

Record eco_policy_dbs : Type := {
  policy : cpufreq_policy;
  tuners : eco_tuners;
  cpu_stats : list eco_cpu_stats;  (* array indexed by CPU number *)
  down_count : Z                   (* unsigned int *)
}.

(** Tunables defaults *)
Definition DEF_UP_THRESHOLD : Z := 80.
Definition DEF_DOWN_THRESHOLD : Z := 20.
Definition DEF_FREQ_STEP : Z := 5.
Definition DEF_SAMPLING_RATE : Z := 10000.
Definition DEF_SAMPLING_DOWN_FACTOR : Z := 1.
Definition DEF_POWERSAVE_BIAS : Z := 0.

Definition default_tuners : eco_tuners := {|
  up_threshold := DEF_UP_THRESHOLD;
  down_threshold := DEF_DOWN_THRESHOLD;
  freq_step := DEF_FREQ_STEP;
  sampling_rate := DEF_SAMPLING_RATE;
  sampling_down_factor := DEF_SAMPLING_DOWN_FACTOR;
  powersave_bias := DEF_POWERSAVE_BIAS
|}.

(** *** Collaborators *)

(** One reading of the idle-time accounting: the returned idle time and
    the wall time written through the out-parameter. *)
Record cpu_time : Type := {
  idle_time : Z;   (* u64 *)
  wall_time : Z    (* u64 *)
}.

(** What the two accounting calls answer during one tick. *)
Record time_source : Type := {
  get_cpu_idle_time : nat -> cpu_time;
  get_cpu_idle_time_us : nat -> cpu_time
}.

Inductive cpufreq_relation : Type :=
  | CPUFREQ_RELATION_L
  | CPUFREQ_RELATION_H.

(** One call of [__cpufreq_driver_target(policy, target_freq, relation)]. *)
Record driver_target : Type := {
  target_freq : Z;
  relation : cpufreq_relation
}.

(** ** eco_calculate_load *)

(** The reading used for a CPU: the jiffy-based call, and the
    microsecond call when the former reports a zero wall time. *)
Definition read_cpu_time (ts : time_source) (cpu : nat) : cpu_time :=
  let r := get_cpu_idle_time ts cpu in
  if wall_time r =? 0 then get_cpu_idle_time_us ts cpu else r.

Definition sample_dt (st : eco_cpu_stats) (r : cpu_time) : Z :=
  u64 (wall_time r - prev_total_time st).

(** Idle time is derived from the stored pair, not stored itself. *)
Definition prev_idle_time (st : eco_cpu_stats) : Z :=
  u64 (prev_total_time st - prev_busy_time st).

Definition sample_db (st : eco_cpu_stats) (r : cpu_time) : Z :=
  u64 (sample_dt st r - u64 (idle_time r - prev_idle_time st)).

Definition sample_stats (r : cpu_time) : eco_cpu_stats := {|
  prev_total_time := wall_time r;
  prev_busy_time := u64 (wall_time r - idle_time r)
|}.

(** Accumulators of the sampling loop: the per-CPU array and the two
    running totals. *)
Record sampler : Type := {
  s_stats : list eco_cpu_stats;
  total_busy_time : Z;
  total_wall_time : Z
}.

(** Body of the [for_each_cpu] loop for one CPU (lines 79-97).  The
    per-CPU array has [nr_cpu_ids] slots; an index outside it is a fault. *)
Definition eco_sample_cpu (ts : time_source) (cpu : nat) (acc : sampler)
  : result sampler :=
  match s_stats acc !! cpu with
  | None => Fault OutOfBounds
  | Some st =>
      let r := read_cpu_time ts cpu in
      let dt := sample_dt st r in
      let db := sample_db st r in
      let stats' := <[cpu := sample_stats r]> (s_stats acc) in
      if 0 <? dt then
        Ok {| s_stats := stats';
              total_busy_time := u64 (total_busy_time acc + db);
              total_wall_time := u64 (total_wall_time acc + dt) |}
      else
        Ok {| s_stats := stats';
              total_busy_time := total_busy_time acc;
              total_wall_time := total_wall_time acc |}
  end.

(** The [for_each_cpu] loop (lines 78-98). *)
Fixpoint eco_sample_cpus (ts : time_source) (mask : list nat) (acc : sampler)
  : result sampler :=
  match mask with
  | [] => Ok acc
  | cpu :: rest => acc' ← eco_sample_cpu ts cpu acc; eco_sample_cpus ts rest acc'
  end.

(** The normalisation after the loop (lines 100-108): raw usage, the
    64-bit quotient stored in an [unsigned int], then the scaling by
    current versus maximum frequency in [unsigned int] arithmetic. *)
Definition eco_scale_load (pol : cpufreq_policy) (busy wall : Z) : result Z :=
  if 0 <? wall then
    q ← div64_u64 (u64 (busy * 100)) wall;
    let raw_usage := u32 q in
    udiv (u32 (raw_usage * cur pol)) (max pol)
  else
    Ok 0.

Definition with_cpu_stats (dbs : eco_policy_dbs) (stats : list eco_cpu_stats)
  : eco_policy_dbs :=
  {| policy := policy dbs; tuners := tuners dbs;
     cpu_stats := stats; down_count := down_count dbs |}.

(** The locals of [eco_calculate_load] on entry to the loop. *)
Definition sampler_init (dbs : eco_policy_dbs) : sampler :=
  {| s_stats := cpu_stats dbs; total_busy_time := 0; total_wall_time := 0 |}.

Definition eco_calculate_load (ts : time_source) (dbs : eco_policy_dbs)
  : result (eco_policy_dbs * Z) :=
  acc ← eco_sample_cpus ts (cpus (policy dbs)) (sampler_init dbs);
  load ← eco_scale_load (policy dbs) (total_busy_time acc) (total_wall_time acc);
  Ok (with_cpu_stats dbs (s_stats acc), load).

(** ** eco_dbs_update *)

(** The locals of one [eco_dbs_update] call and its calls of the
    frequency driver, in order. *)
Record tick_trace : Type := {
  t_load : Z;
  t_effective_load : Z;
  t_freq_step_khz : Z;
  t_requests : list driver_target;
  t_down_count : Z   (* dbs->down_count on return *)
}.

(** Apply powersave bias; the result is clamped to [0, 100]
    (lines 129-133). *)
Definition eco_effective_load (load bias : Z) : Z :=
  let effective_load := s32 (s32 load - bias) in
  let effective_load := if effective_load <? 0 then 0 else effective_load in
  if 100 <? effective_load then 100 else effective_load.

(** Step size relative to [policy->max], minimum 1 MHz (lines 136-138). *)
Definition eco_freq_step_khz (pol_max step_percent : Z) : Z :=
  let freq_step_khz := u32 (pol_max * step_percent) / 100 in
  if freq_step_khz =? 0 then 1000 else freq_step_khz.

Definition with_down_count (dbs : eco_policy_dbs) (n : Z) : eco_policy_dbs :=
  {| policy := policy dbs; tuners := tuners dbs;
     cpu_stats := cpu_stats dbs; down_count := n |}.

(** Branch taken when the effective load exceeds [up_threshold]
    (lines 142-148). *)
Definition eco_step_up (dbs : eco_policy_dbs) (freq_step_khz : Z)
  : eco_policy_dbs * list driver_target :=
  let pol := policy dbs in
  let next_freq := cur pol in
  if next_freq <? max pol then
    let next_freq := u32 (next_freq + freq_step_khz) in
    let next_freq := if max pol <? next_freq then max pol else next_freq in
    (with_down_count dbs 0,
     [ {| target_freq := next_freq; relation := CPUFREQ_RELATION_H |} ])
  else
    (with_down_count dbs 0, []).

(** Branch taken when the effective load is below [down_threshold]
    (lines 150-165). *)
Definition eco_step_down (dbs : eco_policy_dbs) (freq_step_khz : Z)
  : eco_policy_dbs * list driver_target :=
  let pol := policy dbs in
  let next_freq := cur pol in
  let count := u32 (down_count dbs + 1) in
  if sampling_down_factor (tuners dbs) <=? count then
    if min pol <? next_freq then
      let next_freq :=
        if freq_step_khz <? next_freq then u32 (next_freq - freq_step_khz)
        else min pol in
      let next_freq := if next_freq <? min pol then min pol else next_freq in
      (with_down_count dbs 0,
       [ {| target_freq := next_freq; relation := CPUFREQ_RELATION_L |} ])
    else
      (with_down_count dbs 0, [])
  else
    (with_down_count dbs count, []).

(** Within the hysteresis band, keep current frequency (line 168). *)
Definition eco_hold (dbs : eco_policy_dbs)
  : eco_policy_dbs * list driver_target :=
  (with_down_count dbs 0, []).

(** Conservative-style step-up / step-down logic.  The comparisons are
    between the [int] effective load and [unsigned int] thresholds, hence
    performed on the effective load converted to [unsigned int]. *)
Definition eco_step (dbs : eco_policy_dbs) (effective_load freq_step_khz : Z)
  : eco_policy_dbs * list driver_target :=
  if up_threshold (tuners dbs) <? u32 effective_load then
    eco_step_up dbs freq_step_khz
  else if u32 effective_load <? down_threshold (tuners dbs) then
    eco_step_down dbs freq_step_khz
  else
    eco_hold dbs.

Definition eco_dbs_update (ts : time_source) (dbs : eco_policy_dbs)
  : result (eco_policy_dbs * tick_trace) :=
  '(dbs1, load) ← eco_calculate_load ts dbs;
  let effective_load := eco_effective_load load (powersave_bias (tuners dbs1)) in
  let freq_step_khz :=
    eco_freq_step_khz (max (policy dbs1)) (freq_step (tuners dbs1)) in
  let '(dbs2, requests) := eco_step dbs1 effective_load freq_step_khz in
  Ok (dbs2, {| t_load := load; t_effective_load := effective_load;
               t_freq_step_khz := freq_step_khz; t_requests := requests;
               t_down_count := down_count dbs2 |}).

(** ** The sampling loop *)

(** What the host supplies at a tick: the policy as the cpufreq core
    holds it at that moment, and the idle-time accounting. *)
Record tick_env : Type := {
  env_policy : cpufreq_policy;
  env_time : time_source
}.

Definition with_policy (dbs : eco_policy_dbs) (pol : cpufreq_policy)
  : eco_policy_dbs :=
  {| policy := pol; tuners := tuners dbs;
     cpu_stats := cpu_stats dbs; down_count := down_count dbs |}.

(** One expiry of the delayed work: [dbs->policy] points at the policy
    the host maintains, and the update runs under the timer mutex.  The
    pointer is set by [eco_init] and not cleared while the work is
    armed, so the early return on a null policy is not modelled. *)
Definition eco_dbs_timer (env : tick_env) (dbs : eco_policy_dbs)
  : result (eco_policy_dbs * tick_trace) :=
  eco_dbs_update (env_time env) (with_policy dbs (env_policy env)).

(** The work rescheduling itself: successive ticks, with their traces. *)
Fixpoint eco_run (envs : list tick_env) (dbs : eco_policy_dbs)
  : result (eco_policy_dbs * list tick_trace) :=
  match envs with
  | [] => Ok (dbs, [])
  | env :: rest =>
      '(dbs1, t) ← eco_dbs_timer env dbs;
      '(dbs2, ts) ← eco_run rest dbs1;
      Ok (dbs2, t :: ts)
  end.

(** [eco_init]: default tunables, a zeroed debounce counter, and the
    per-CPU accounting seeded from a first reading. *)
Fixpoint eco_init_stats (ts : time_source) (mask : list nat)
  (stats : list eco_cpu_stats) : result (list eco_cpu_stats) :=
  match mask with
  | [] => Ok stats
  | cpu :: rest =>
      match stats !! cpu with
      | None => Fault OutOfBounds
      | Some _ =>
          eco_init_stats ts rest (<[cpu := sample_stats (read_cpu_time ts cpu)]> stats)
      end
  end.

Definition eco_init (nr_cpu_ids : nat) (ts : time_source) (pol : cpufreq_policy)
  : result eco_policy_dbs :=
  stats ← eco_init_stats ts (cpus pol)
            (replicate nr_cpu_ids {| prev_total_time := 0; prev_busy_time := 0 |});
  Ok {| policy := pol; tuners := default_tuners;
        cpu_stats := stats; down_count := 0 |}.

(** * Specification vocabulary *)

(** The values of a policy fit their C types. *)
Record policy_wf (pol : cpufreq_policy) : Prop := {
  wf_cur : is_u32 (cur pol);
  wf_min : is_u32 (min pol);
  wf_max : is_u32 (max pol)
}.

Record tuners_wf (tun : eco_tuners) : Prop := {
  wf_up_threshold : is_u32 (up_threshold tun);
  wf_down_threshold : is_u32 (down_threshold tun);
  wf_freq_step : is_u32 (freq_step tun);
  wf_sampling_down_factor : is_u32 (sampling_down_factor tun);
  wf_powersave_bias : is_s32 (powersave_bias tun)
}.

Definition stats_wf (st : eco_cpu_stats) : Prop :=
  is_u64 (prev_total_time st) /\ is_u64 (prev_busy_time st).

(** The governor state fits its C types, and the CPU mask is a set of
    indices into the per-CPU array. *)
Record dbs_wf (dbs : eco_policy_dbs) : Prop := {
  wf_policy : policy_wf (policy dbs);
  wf_tuners : tuners_wf (tuners dbs);
  wf_down_count : is_u32 (down_count dbs);
  wf_cpu_stats : Forall stats_wf (cpu_stats dbs);
  wf_mask : Forall (fun cpu => (cpu < length (cpu_stats dbs))%nat) (cpus (policy dbs));
  wf_mask_nodup : NoDup (cpus (policy dbs))
}.

(** A well-formed reading for a unit: the counters have not gone
    backwards, and the unit was not idle for longer than the time that
    elapsed. *)
Record valid_sample (st : eco_cpu_stats) (r : cpu_time) : Prop := {
  vs_wall : is_u64 (wall_time r);
  vs_idle : is_u64 (idle_time r);
  vs_wall_mono : prev_total_time st <= wall_time r;
  vs_idle_mono : prev_idle_time st <= idle_time r;
  vs_idle_le_wall :
    idle_time r - prev_idle_time st <= wall_time r - prev_total_time st
}.

Definition valid_samples (ts : time_source) (stats : list eco_cpu_stats)
  (mask : list nat) : Prop :=
  forall cpu st, cpu ∈ mask -> stats !! cpu = Some st ->
    valid_sample st (read_cpu_time ts cpu).

Definition valid_bounds (pol : cpufreq_policy) : Prop :=
  min pol <= cur pol <= max pol /\ 0 < max pol.

(** A valid tick: valid readings for every unit of the group and valid
    frequency bounds. *)
Definition valid_tick (ts : time_source) (dbs : eco_policy_dbs) : Prop :=
  valid_samples ts (cpu_stats dbs) (cpus (policy dbs)) /\
  valid_bounds (policy dbs).

(** The wall time elapsed over the units of a mask, as a mathematical
    sum. *)
Fixpoint wall_delta_sum (ts : time_source) (stats : list eco_cpu_stats)
  (mask : list nat) : Z :=
  match mask with
  | [] => 0
  | cpu :: rest =>
      match stats !! cpu with
      | Some st => wall_time (read_cpu_time ts cpu) - prev_total_time st
      | None => 0
      end + wall_delta_sum ts stats rest
  end.

Definition in_bounds (pol : cpufreq_policy) (r : driver_target) : Prop :=
  min pol <= target_freq r <= max pol.

(** Raw usage in percent, for a positive wall total. *)
Definition eco_raw_usage (busy wall : Z) : Z := u32 (u64 (busy * 100) / wall).

(** The debounce counter after a tick that took the down path. *)
Definition down_count_after_down (dbs : eco_policy_dbs) : Z :=
  if sampling_down_factor (tuners dbs) <=? u32 (down_count dbs + 1)
  then 0 else u32 (down_count dbs + 1).

(** The part of [eco_dbs_update] after the load computation, as a function
    of the sampled state and the computed load. *)
Definition tick_of_load (dbs1 : eco_policy_dbs) (load : Z)
  : eco_policy_dbs * tick_trace :=
  let eff := eco_effective_load load (powersave_bias (tuners dbs1)) in
  let step := eco_freq_step_khz (max (policy dbs1)) (freq_step (tuners dbs1)) in
  let out := eco_step dbs1 eff step in
  (out.1, {| t_load := load; t_effective_load := eff; t_freq_step_khz := step;
             t_requests := out.2; t_down_count := down_count out.1 |}).

(** The accounting answers 64-bit readings. *)
Definition time_wf (ts : time_source) : Prop :=
  forall cpu, is_u64 (wall_time (read_cpu_time ts cpu)).

(** What the host may present at a tick to a governor with [n] per-CPU
    slots. *)
Record env_wf (n : nat) (env : tick_env) : Prop := {
  ewf_policy : policy_wf (env_policy env);
  ewf_mask : Forall (fun cpu => (cpu < n)%nat) (cpus (env_policy env));
  ewf_mask_nodup : NoDup (cpus (env_policy env));
  ewf_time : time_wf (env_time env)
}.

(** * The governor's life cycle *)

(** The idle time elapsed over the units of a mask, as a mathematical
    sum. *)
Fixpoint idle_delta_sum (ts : time_source) (stats : list eco_cpu_stats)
  (mask : list nat) : Z :=
  match mask with
  | [] => 0
  | cpu :: rest =>
      match stats !! cpu with
      | Some st => idle_time (read_cpu_time ts cpu) - prev_idle_time st
      | None => 0
      end + idle_delta_sum ts stats rest
  end.

Inductive errno : Type :=
  | ENOMEM
  | EINVAL.

(** The [int] a governor callback returns: 0 or a negated error number. *)
Inductive retval : Type :=
  | RET_OK
  | RET_NEG (e : errno).

(** What [policy->governor_data] points at: the governor state and its
    delayed work, pending with the delay (in microseconds, as handed to
    [usecs_to_jiffies]) or idle. *)
Record governed : Type := {
  gd_dbs : eco_policy_dbs;
  gd_work : option Z
}.

(** [schedule_delayed_work] does nothing to a work that is pending. *)
Definition schedule_delayed_work (work : option Z) (delay : Z) : option Z :=
  match work with
  | Some pending => Some pending
  | None => Some delay
  end.

Definition cancel_delayed_work_sync (work : option Z) : option Z := None.

(** [eco_init] with its two allocations (lines 199-208), which the
    allocator may refuse; [eco_init] above is the initialisation that
    follows them. *)
Definition eco_init_policy (dbs_alloc stats_alloc : bool) (nr_cpu_ids : nat)
  (ts : time_source) (pol : cpufreq_policy) (governor_data : option governed)
  : result (retval * option governed) :=
  if negb dbs_alloc then Ok (RET_NEG ENOMEM, governor_data)
  else if negb stats_alloc then Ok (RET_NEG ENOMEM, governor_data)
  else
    dbs ← eco_init nr_cpu_ids ts pol;
    Ok (RET_OK, Some {| gd_dbs := dbs; gd_work := None |}).

Definition eco_start (governor_data : option governed)
  : retval * option governed :=
  match governor_data with
  | None => (RET_NEG EINVAL, None)
  | Some g =>
      (RET_OK,
       Some {| gd_dbs := gd_dbs g;
               gd_work := schedule_delayed_work (gd_work g)
                            (sampling_rate (tuners (gd_dbs g))) |})
  end.

Definition eco_stop (governor_data : option governed) : option governed :=
  match governor_data with
  | None => None
  | Some g =>
      Some {| gd_dbs := gd_dbs g;
              gd_work := cancel_delayed_work_sync (gd_work g) |}
  end.

(** [eco_exit]: cancel the work, free the state, clear the pointer. *)
Definition eco_exit (governor_data : option governed) : option governed :=
  match governor_data with
  | None => None
  | Some _ => None
  end.

(** The work function as the workqueue runs it (lines 172-192): the work
    is no longer pending while it runs, and re-arms itself after the
    update. *)
Definition eco_dbs_timer_work (env : tick_env) (g : governed)
  : result (governed * tick_trace) :=
  '(dbs, t) ← eco_dbs_timer env (gd_dbs g);
  Ok ({| gd_dbs := dbs;
         gd_work := schedule_delayed_work None (sampling_rate (tuners dbs)) |},
      t).

Fixpoint eco_work_run (envs : list tick_env) (g : governed)
  : result (governed * list tick_trace) :=
  match envs with
  | [] => Ok (g, [])
  | env :: rest =>
      '(g1, t) ← eco_dbs_timer_work env g;
      '(g2, ts) ← eco_work_run rest g1;
      Ok (g2, t :: ts)
  end.

(** * Scenarios *)

(** Accounting that answers the same reading for every CPU. *)
Definition uniform_time (idle wall : Z) : time_source :=
  {| get_cpu_idle_time := fun _ => {| idle_time := idle; wall_time := wall |};
     get_cpu_idle_time_us := fun _ => {| idle_time := idle; wall_time := wall |} |}.

Definition zero_stats : eco_cpu_stats :=
  {| prev_total_time := 0; prev_busy_time := 0 |}.

(** A single-CPU policy group with the given bounds, in kHz. *)
Definition policy_of (pol_min pol_cur pol_max : Z) : cpufreq_policy :=
  {| cpus := [0%nat]; cur := pol_cur; min := pol_min; max := pol_max |}.

(** A freshly initialised governor on a single-CPU group. *)
Definition dbs_of (pol : cpufreq_policy) (tun : eco_tuners) (count : Z)
  : eco_policy_dbs :=
  {| policy := pol; tuners := tun;
     cpu_stats := replicate (length (cpus pol)) zero_stats;
     down_count := count |}.

(** The default tunables but for the debounce factor and the bias. *)
Definition tuners_with (factor bias : Z) : eco_tuners :=
  {| up_threshold := DEF_UP_THRESHOLD; down_threshold := DEF_DOWN_THRESHOLD;
     freq_step := DEF_FREQ_STEP; sampling_rate := DEF_SAMPLING_RATE;
     sampling_down_factor := factor;
     powersave_bias := bias |}.

(** 90% busy over one second on a 2 GHz group running at 1.8 GHz. *)
Definition busy_1800 : eco_policy_dbs :=
  dbs_of (policy_of 800000 1800000 2000000) default_tuners 0.

(** A group whose frequencies sit at the top of the [unsigned int] range. *)
Definition top_of_range : eco_policy_dbs :=
  dbs_of (policy_of 4294967294 4294967294 4294967295) (tuners_with 1 (-100)) 0.

(** Two CPUs whose wall deltas add up to more than 64 bits hold. *)
Definition two_cpus : eco_policy_dbs :=
  {| policy := {| cpus := [0%nat; 1%nat]; cur := 1000; min := 1000; max := 1000 |};
     tuners := default_tuners;
     cpu_stats := [zero_stats; zero_stats];
     down_count := 0 |}.

Definition long_time : time_source :=
  let reading (cpu : nat) :=
    match cpu with
    | O => {| idle_time := 1; wall_time := 9223372036854775808 |}
    | _ => {| idle_time := 2; wall_time := 9223372036854775809 |}
    end in
  {| get_cpu_idle_time := reading; get_cpu_idle_time_us := reading |}.

(** The host's view at a tick: the policy and the accounting. *)
Definition env_of (pol : cpufreq_policy) (idle wall : Z) : tick_env :=
  {| env_policy := pol; env_time := uniform_time idle wall |}.

(** Three seconds at 5% busy, sampled once a second. *)
Definition idle_ticks : list tick_env :=
  [ env_of (policy_of 800000 1800000 2000000) 950000 1000000;
    env_of (policy_of 800000 1800000 2000000) 1900000 2000000 ].

Definition idle_tick_3 : tick_env :=
  env_of (policy_of 800000 1800000 2000000) 2850000 3000000.

Definition debounced : eco_policy_dbs :=
  dbs_of (policy_of 800000 1800000 2000000) (tuners_with 3 0) 0.

(** A group well inside the 32-bit range on the frequency axis, yet
    close enough to its end for [cur + step] to wrap. *)
Definition near_top : eco_policy_dbs :=
  dbs_of (policy_of 1000000 4290000000 4294967295) (tuners_with 1 (-100)) 7.

(** Policies at 2^26 kHz and at half of it, under the same maximum. *)
Definition fast_policy : cpufreq_policy := policy_of 1000000 67108864 67108864.
Definition half_policy : cpufreq_policy := policy_of 1000000 33554432 67108864.

(** A sampler whose only CPU was last seen at a later wall time than the
    accounting reports now. *)
Definition after_reset : sampler :=
  {| s_stats := [ {| prev_total_time := 5000; prev_busy_time := 3000 |} ];
     total_busy_time := 0; total_wall_time := 0 |}.

(** A performance-biased governor part-way through a debounce. *)
Definition biased_up : eco_policy_dbs :=
  dbs_of (policy_of 800000 1800000 2000000) (tuners_with 3 (-50)) 1.

(** Two seconds at 50% busy, sampled once a second. *)
Definition half_busy_ticks : list tick_env :=
  [ env_of (policy_of 800000 1800000 2000000) 500000 1000000;
    env_of (policy_of 800000 1800000 2000000) 1000000 2000000 ].

(** Powersave bias 30 on a group at 1.6 GHz out of 2 GHz. *)
Definition biased_down : eco_policy_dbs :=
  dbs_of (policy_of 800000 1600000 2000000) (tuners_with 1 30) 0.

(** A policy whose maximum frequency is 0. *)
Definition no_max : eco_policy_dbs :=
  dbs_of (policy_of 0 0 0) default_tuners 0.

(** Thresholds the wrong way round: up 10, down 50, no debounce. *)
Definition inverted : eco_policy_dbs :=
  dbs_of (policy_of 800000 1000000 2000000)
    {| up_threshold := 10; down_threshold := 50; freq_step := DEF_FREQ_STEP;
       sampling_rate := DEF_SAMPLING_RATE; sampling_down_factor := 1;
       powersave_bias := DEF_POWERSAVE_BIAS |} 0.

(** * Properties *)

(** ** Machine arithmetic facts *)

Ltac mach_unfold :=
  unfold is_u32, is_u64, is_s32, u32, u64, s32,
    U32_MOD, U64_MOD, INT_MIN, INT_MAX in *.

Ltac mach_lia := mach_unfold; Z.to_euclidean_division_equations; lia.

Lemma u32_range x : is_u32 (u32 x).
Proof. mach_lia. Qed.

Lemma u64_range x : is_u64 (u64 x).
Proof. mach_lia. Qed.

Lemma s32_range x : is_s32 (s32 x).
Proof. mach_lia. Qed.

Lemma u32_small x : is_u32 x -> u32 x = x.
Proof. mach_lia. Qed.

Lemma u64_small x : is_u64 x -> u64 x = x.
Proof. mach_lia. Qed.

Lemma s32_small x : is_s32 x -> s32 x = x.
Proof. mach_lia. Qed.

Lemma u32_le x : 0 <= x -> 0 <= u32 x <= x.
Proof. mach_lia. Qed.

Lemma u64_le x : 0 <= x -> 0 <= u64 x <= x.
Proof. mach_lia. Qed.

(** Tests of the code, as propositions. *)
Ltac case_tests :=
  repeat match goal with
  | |- context [ ?a <? ?b ] => destruct (Z.ltb_spec a b)
  | |- context [ ?a <=? ?b ] => destruct (Z.leb_spec a b)
  | |- context [ ?a =? ?b ] => destruct (Z.eqb_spec a b)
  | H : context [ ?a <? ?b ] |- _ => destruct (Z.ltb_spec a b)
  | H : context [ ?a <=? ?b ] |- _ => destruct (Z.leb_spec a b)
  | H : context [ ?a =? ?b ] |- _ => destruct (Z.eqb_spec a b)
  end.

(** ** The error monad *)

Lemma bind_Ok {A B} (c : result A) (k : A -> result B) (b : B) :
  c ≫= k = Ok b <-> exists a, c = Ok a /\ k a = Ok b.
Proof.
  destruct c as [a|f]; simpl; split.
  - eauto.
  - intros (a' & [= <-] & H). exact H.
  - discriminate.
  - intros (a' & [=] & _).
Qed.

Lemma bind_Fault {A B} (c : result A) (k : A -> result B) (f : fault) :
  c ≫= k = Fault f <-> c = Fault f \/ exists a, c = Ok a /\ k a = Fault f.
Proof.
  destruct c as [a|f']; simpl; split.
  - eauto.
  - intros [[=] | (a' & [= <-] & H)]. exact H.
  - intros [= <-]. by left.
  - intros [[= <-] | (a' & [=] & _)]. reflexivity.
Qed.

Lemma udiv_Ok a b : b <> 0 -> udiv a b = Ok (a / b).
Proof. intros H. unfold udiv. by destruct (Z.eqb_spec b 0). Qed.

Lemma udiv_zero a : udiv a 0 = Fault DivideByZero.
Proof. reflexivity. Qed.

Lemma udiv_Fault a b f : udiv a b = Fault f -> f = DivideByZero /\ b = 0.
Proof. unfold udiv. destruct (Z.eqb_spec b 0); [intros [= <-]; done | done]. Qed.

(** ** The sampling loop *)

Section Sampler.
Variable ts : time_source.

Lemma eco_sample_cpu_Ok cpu acc st :
  s_stats acc !! cpu = Some st ->
  exists acc', eco_sample_cpu ts cpu acc = Ok acc' /\
    s_stats acc' = <[cpu := sample_stats (read_cpu_time ts cpu)]> (s_stats acc).
Proof.
  intros Hst. unfold eco_sample_cpu. rewrite Hst.
  destruct (0 <? _); eexists; split; reflexivity.
Qed.

(** On a valid reading nothing wraps: the deltas are the mathematical
    differences, and the busy delta is at most the wall delta. *)
Lemma valid_sample_deltas st r :
  stats_wf st -> valid_sample st r ->
  sample_dt st r = wall_time r - prev_total_time st /\
  0 <= sample_db st r <= sample_dt st r.
Proof.
  intros [Ht Hb] [Hw Hi Hwm Him Hiw].
  unfold sample_db, sample_dt in *.
  set (pi := prev_idle_time st) in *.
  assert (is_u64 pi) by apply u64_range.
  rewrite (u64_small (wall_time r - _)) by (mach_unfold; lia).
  rewrite (u64_small (idle_time r - _)) by (mach_unfold; lia).
  rewrite u64_small by (mach_unfold; lia).
  lia.
Qed.

Lemma wall_delta_sum_insert stats mask cpu st :
  cpu ∉ mask ->
  wall_delta_sum ts (<[cpu := st]> stats) mask = wall_delta_sum ts stats mask.
Proof.
  induction mask as [|c mask IH]; [done|]; intros Hnotin; simpl.
  rewrite not_elem_of_cons in Hnotin. destruct Hnotin as [Hne Hnotin].
  rewrite list_lookup_insert_ne by done.
  by rewrite IH.
Qed.

Lemma wall_delta_sum_nonneg stats mask :
  Forall stats_wf stats -> valid_samples ts stats mask ->
  0 <= wall_delta_sum ts stats mask.
Proof.
  intros Hwf. induction mask as [|c mask IH]; intros Hv; simpl; [lia|].
  assert (0 <= wall_delta_sum ts stats mask).
  { apply IH. intros cpu st Hin. apply Hv. by right. }
  destruct (stats !! c) as [st|] eqn:Hst; [|lia].
  destruct (Hv c st) as [_ _ ? _ _]; [by left | done | lia].
Qed.

(** The loop invariant on valid readings: the totals are the exact
    sums as long as the wall total fits in 64 bits, and the busy total
    never exceeds the wall total. *)
Lemma eco_sample_cpus_valid mask : forall acc,
  NoDup mask ->
  Forall (fun cpu => (cpu < length (s_stats acc))%nat) mask ->
  Forall stats_wf (s_stats acc) ->
  valid_samples ts (s_stats acc) mask ->
  0 <= total_busy_time acc <= total_wall_time acc ->
  total_wall_time acc + wall_delta_sum ts (s_stats acc) mask < U64_MOD ->
  exists acc', eco_sample_cpus ts mask acc = Ok acc' /\
    0 <= total_busy_time acc' <= total_wall_time acc' /\
    total_wall_time acc' =
      total_wall_time acc + wall_delta_sum ts (s_stats acc) mask.
Proof.
  induction mask as [|c mask IH]; intros acc Hnd Hlen Hwf Hv Hle Hsum; simpl.
  - exists acc. split; [done|]. split; lia.
  - apply NoDup_cons in Hnd as [Hnotin Hnd].
    apply Forall_cons in Hlen as [Hc Hlen].
    destruct (lookup_lt_is_Some_2 _ _ Hc) as [st Hst].
    simpl in Hsum. rewrite Hst in Hsum.
    assert (stats_wf st) as Hwfst.
    { eapply Forall_lookup_1; eauto. }
    assert (valid_sample st (read_cpu_time ts c)) as Hvs.
    { apply Hv; [by left | done]. }
    destruct (valid_sample_deltas _ _ Hwfst Hvs) as [Hdt Hdb].
    assert (0 <= wall_delta_sum ts (s_stats acc) mask) as Hrest.
    { apply wall_delta_sum_nonneg; [done|].
      intros cpu st' Hin. apply Hv. by right. }
    set (r := read_cpu_time ts c) in *.
    set (stats' := <[c := sample_stats r]> (s_stats acc)).
    assert (Forall stats_wf stats') as Hwf'.
    { apply Forall_insert; [done|].
      destruct Hvs. split; simpl; [done | apply u64_range]. }
    assert (valid_samples ts stats' mask) as Hv'.
    { intros cpu st' Hin Hlk. apply Hv; [by right|].
      unfold stats' in Hlk. rewrite list_lookup_insert_ne in Hlk; [done|].
      intros ->. done. }
    assert (Forall (fun cpu => (cpu < length stats')%nat) mask) as Hlen'.
    { unfold stats'. by rewrite length_insert. }
    assert (wall_delta_sum ts stats' mask = wall_delta_sum ts (s_stats acc) mask)
      as Hsum' by (by apply wall_delta_sum_insert).
    unfold eco_sample_cpu. rewrite Hst. fold r. fold stats'.
    destruct (Z.ltb_spec 0 (sample_dt st r)) as [Hpos|Hzero]; simpl.
    + edestruct (IH {| s_stats := stats';
                       total_busy_time := u64 (total_busy_time acc + sample_db st r);
                       total_wall_time := u64 (total_wall_time acc + sample_dt st r) |})
        as (acc' & Hrun & Hle' & Htot); simpl; try done.
      * rewrite !u64_small by (mach_unfold; lia). lia.
      * rewrite Hsum', u64_small by (mach_unfold; lia). lia.
      * exists acc'. split; [done|]. split; [done|].
        rewrite Htot. simpl. rewrite Hsum', u64_small by (mach_unfold; lia). lia.
    + edestruct (IH {| s_stats := stats';
                       total_busy_time := total_busy_time acc;
                       total_wall_time := total_wall_time acc |})
        as (acc' & Hrun & Hle' & Htot); simpl; try done.
      * rewrite Hsum'. lia.
      * exists acc'. split; [done|]. split; [done|].
        rewrite Htot. simpl. rewrite Hsum'. lia.
Qed.

Lemma eco_sample_cpus_total mask : forall acc,
  Forall (fun cpu => (cpu < length (s_stats acc))%nat) mask ->
  exists acc', eco_sample_cpus ts mask acc = Ok acc'.
Proof.
  induction mask as [|c mask IH]; intros acc Hlen; simpl; [by exists acc|].
  apply Forall_cons in Hlen as [Hc Hlen].
  destruct (lookup_lt_is_Some_2 _ _ Hc) as [st Hst].
  destruct (eco_sample_cpu_Ok c acc st Hst) as (acc1 & -> & Hstats). simpl.
  apply IH. by rewrite Hstats, length_insert.
Qed.

End Sampler.

(** ** Load normalisation *)

Lemma eco_scale_load_no_time pol busy wall :
  wall <= 0 -> eco_scale_load pol busy wall = Ok 0.
Proof. intros H. unfold eco_scale_load. by destruct (Z.ltb_spec 0 wall); [lia|]. Qed.

Lemma eco_scale_load_time pol busy wall :
  0 < wall ->
  eco_scale_load pol busy wall =
    udiv (u32 (eco_raw_usage busy wall * cur pol)) (max pol).
Proof.
  intros H. unfold eco_scale_load, div64_u64, eco_raw_usage.
  destruct (Z.ltb_spec 0 wall); [|lia].
  rewrite udiv_Ok by lia. reflexivity.
Qed.

Lemma eco_scale_load_total pol busy wall :
  max pol <> 0 -> exists load, eco_scale_load pol busy wall = Ok load.
Proof.
  intros Hmax. destruct (Z.le_gt_cases wall 0) as [Hw|Hw].
  - exists 0. by apply eco_scale_load_no_time.
  - rewrite eco_scale_load_time, udiv_Ok by done. by eexists.
Qed.

Lemma eco_raw_usage_bounded busy wall :
  0 <= busy <= wall -> 0 < wall -> 0 <= eco_raw_usage busy wall <= 100.
Proof.
  intros Hb Hw. unfold eco_raw_usage.
  pose proof (u64_le (busy * 100) ltac:(lia)) as Hm.
  assert (0 <= u64 (busy * 100) / wall <= 100) as Hq.
  { split; [apply Z.div_pos; lia|].
    apply Z.div_le_upper_bound; [done | nia]. }
  rewrite u32_small by (mach_unfold; lia). done.
Qed.

Lemma eco_scale_load_bounded pol busy wall :
  0 <= busy <= wall -> 0 <= cur pol <= max pol -> 0 < max pol ->
  exists load, eco_scale_load pol busy wall = Ok load /\ 0 <= load <= 100.
Proof.
  intros Hb Hc Hm.
  destruct (Z.le_gt_cases wall 0) as [Hw|Hw].
  - exists 0. rewrite eco_scale_load_no_time by done. split; [done | lia].
  - rewrite eco_scale_load_time by lia. rewrite udiv_Ok by lia.
    eexists; split; [reflexivity|].
    pose proof (eco_raw_usage_bounded busy wall Hb ltac:(lia)) as Hr.
    pose proof (u32_le (eco_raw_usage busy wall * cur pol) ltac:(nia)) as Hu.
    split; [apply Z.div_pos; lia|].
    apply Z.div_le_upper_bound; [done | nia].
Qed.

(** ** Bias and step size *)

Lemma eco_effective_load_range load bias :
  0 <= eco_effective_load load bias <= 100.
Proof. unfold eco_effective_load. case_tests; lia. Qed.

Lemma eco_effective_load_clamp load bias :
  is_u32 load -> load <= INT_MAX -> is_s32 bias -> load - bias <= INT_MAX ->
  eco_effective_load load bias = Z.max 0 (Z.min 100 (load - bias)).
Proof.
  intros Hl Hli Hb Hd. unfold eco_effective_load.
  rewrite (s32_small load) by (mach_unfold; lia).
  rewrite s32_small by (mach_unfold; lia).
  case_tests; lia.
Qed.

Lemma eco_effective_load_zero bias :
  is_s32 bias -> 0 <= bias -> eco_effective_load 0 bias = 0.
Proof.
  intros Hs Hb. unfold eco_effective_load.
  rewrite (s32_small 0) by (mach_unfold; lia).
  rewrite s32_small by (mach_unfold; lia).
  case_tests; lia.
Qed.

Lemma eco_freq_step_khz_range pol_max step_percent :
  0 < eco_freq_step_khz pol_max step_percent < U32_MOD.
Proof.
  unfold eco_freq_step_khz. pose proof (u32_range (pol_max * step_percent)) as Hr.
  case_tests; [mach_unfold; lia|].
  assert (0 <= u32 (pol_max * step_percent) / 100) by (apply Z.div_pos; mach_unfold; lia).
  split; [lia|].
  apply Z.div_lt_upper_bound; mach_unfold; lia.
Qed.

(** ** The step controller *)

Lemma eco_step_up_eq dbs step :
  eco_step_up dbs step =
    (with_down_count dbs 0,
     if cur (policy dbs) <? max (policy dbs) then
       [ {| target_freq := Z.min (u32 (cur (policy dbs) + step)) (max (policy dbs));
            relation := CPUFREQ_RELATION_H |} ]
     else []).
Proof.
  unfold eco_step_up. case_tests; try done; repeat f_equal; lia.
Qed.

Lemma eco_step_down_held dbs step :
  u32 (down_count dbs + 1) < sampling_down_factor (tuners dbs) ->
  eco_step_down dbs step = (with_down_count dbs (u32 (down_count dbs + 1)), []).
Proof. intros H. unfold eco_step_down. by case_tests; try lia. Qed.

Lemma eco_step_down_fired dbs step :
  sampling_down_factor (tuners dbs) <= u32 (down_count dbs + 1) ->
  is_u32 (cur (policy dbs)) -> is_u32 (min (policy dbs)) -> 0 < step ->
  eco_step_down dbs step =
    (with_down_count dbs 0,
     if min (policy dbs) <? cur (policy dbs) then
       [ {| target_freq := Z.max (min (policy dbs)) (cur (policy dbs) - step);
            relation := CPUFREQ_RELATION_L |} ]
     else []).
Proof.
  intros Hf Hc Hm Hs. unfold eco_step_down.
  destruct (Z.leb_spec (sampling_down_factor (tuners dbs)) (u32 (down_count dbs + 1)));
    [|lia].
  destruct (Z.ltb_spec (min (policy dbs)) (cur (policy dbs))); [|done].
  destruct (Z.ltb_spec step (cur (policy dbs))).
  - rewrite u32_small by (mach_unfold; lia). case_tests; repeat f_equal; lia.
  - case_tests; repeat f_equal; mach_unfold; lia.
Qed.

Lemma eco_step_down_count dbs step :
  down_count (eco_step_down dbs step).1 = down_count_after_down dbs.
Proof.
  unfold eco_step_down, down_count_after_down.
  by case_tests.
Qed.

(** Which branch is taken, for an effective load within [0, 100]. *)
Lemma eco_step_above dbs eff step :
  0 <= eff <= 100 -> up_threshold (tuners dbs) < eff ->
  eco_step dbs eff step = eco_step_up dbs step.
Proof.
  intros He Hu. unfold eco_step. rewrite u32_small by (mach_unfold; lia).
  by destruct (Z.ltb_spec (up_threshold (tuners dbs)) eff); [|lia].
Qed.

Lemma eco_step_below dbs eff step :
  0 <= eff <= 100 -> eff <= up_threshold (tuners dbs) ->
  eff < down_threshold (tuners dbs) ->
  eco_step dbs eff step = eco_step_down dbs step.
Proof.
  intros He Hu Hd. unfold eco_step. rewrite u32_small by (mach_unfold; lia).
  destruct (Z.ltb_spec (up_threshold (tuners dbs)) eff); [lia|].
  by destruct (Z.ltb_spec eff (down_threshold (tuners dbs))); [|lia].
Qed.

Lemma eco_step_between dbs eff step :
  0 <= eff <= 100 ->
  down_threshold (tuners dbs) <= eff <= up_threshold (tuners dbs) ->
  eco_step dbs eff step = eco_hold dbs.
Proof.
  intros He Hb. unfold eco_step. rewrite u32_small by (mach_unfold; lia).
  destruct (Z.ltb_spec (up_threshold (tuners dbs)) eff); [lia|].
  by destruct (Z.ltb_spec eff (down_threshold (tuners dbs))); [lia|].
Qed.

(** The controller touches nothing but the debounce counter. *)
Lemma eco_step_frame dbs eff step :
  policy (eco_step dbs eff step).1 = policy dbs /\
  tuners (eco_step dbs eff step).1 = tuners dbs /\
  cpu_stats (eco_step dbs eff step).1 = cpu_stats dbs.
Proof.
  unfold eco_step, eco_step_up, eco_step_down, eco_hold.
  by case_tests.
Qed.

Lemma eco_step_in_bounds dbs eff step :
  policy_wf (policy dbs) ->
  min (policy dbs) <= cur (policy dbs) <= max (policy dbs) ->
  0 < step -> cur (policy dbs) + step < U32_MOD ->
  Forall (in_bounds (policy dbs)) (eco_step dbs eff step).2.
Proof.
  intros [Hc Hm Hx] Hb Hs Hw.
  unfold eco_step, eco_step_up, eco_step_down, eco_hold, in_bounds.
  rewrite (u32_small (cur (policy dbs) + step)) by (mach_unfold; lia).
  destruct (Z.ltb_spec step (cur (policy dbs))).
  - rewrite (u32_small (cur (policy dbs) - step)) by (mach_unfold; lia).
    case_tests; simpl; repeat constructor; simpl; mach_unfold; lia.
  - case_tests; simpl; repeat constructor; simpl; mach_unfold; lia.
Qed.

(** ** One tick *)

Lemma eco_calculate_load_inv ts dbs dbs1 load :
  eco_calculate_load ts dbs = Ok (dbs1, load) ->
  exists acc,
    eco_sample_cpus ts (cpus (policy dbs)) (sampler_init dbs) = Ok acc /\
    eco_scale_load (policy dbs) (total_busy_time acc) (total_wall_time acc) = Ok load /\
    dbs1 = with_cpu_stats dbs (s_stats acc).
Proof.
  unfold eco_calculate_load. intros H.
  apply bind_Ok in H as (acc & Hacc & H).
  apply bind_Ok in H as (l & Hl & H).
  injection H as <- <-. exists acc. done.
Qed.

Lemma eco_calculate_load_intro ts dbs acc load :
  eco_sample_cpus ts (cpus (policy dbs)) (sampler_init dbs) = Ok acc ->
  eco_scale_load (policy dbs) (total_busy_time acc) (total_wall_time acc) = Ok load ->
  eco_calculate_load ts dbs = Ok (with_cpu_stats dbs (s_stats acc), load).
Proof. intros Ha Hl. unfold eco_calculate_load. rewrite Ha. simpl. by rewrite Hl. Qed.

Lemma eco_dbs_update_of_load ts dbs dbs1 load :
  eco_calculate_load ts dbs = Ok (dbs1, load) ->
  eco_dbs_update ts dbs = Ok (tick_of_load dbs1 load).
Proof.
  intros H. unfold eco_dbs_update, tick_of_load. rewrite H. simpl.
  by destruct (eco_step _ _ _).
Qed.

Lemma eco_dbs_update_inv ts dbs dbs' t :
  eco_dbs_update ts dbs = Ok (dbs', t) ->
  exists dbs1 load,
    eco_calculate_load ts dbs = Ok (dbs1, load) /\
    (dbs', t) = tick_of_load dbs1 load.
Proof.
  intros H. destruct (eco_calculate_load ts dbs) as [[dbs1 load]|f] eqn:Hl.
  - exists dbs1, load. split; [done|].
    rewrite (eco_dbs_update_of_load _ _ _ _ Hl) in H. congruence.
  - unfold eco_dbs_update in H. by rewrite Hl in H.
Qed.

(** What a tick leaves alone, and what its trace records. *)
Lemma eco_dbs_update_trace ts dbs dbs' t :
  eco_dbs_update ts dbs = Ok (dbs', t) ->
  exists dbs1,
    eco_calculate_load ts dbs = Ok (dbs1, t_load t) /\
    policy dbs1 = policy dbs /\ tuners dbs1 = tuners dbs /\
    down_count dbs1 = down_count dbs /\
    t_effective_load t =
      eco_effective_load (t_load t) (powersave_bias (tuners dbs)) /\
    t_freq_step_khz t =
      eco_freq_step_khz (max (policy dbs)) (freq_step (tuners dbs)) /\
    eco_step dbs1 (t_effective_load t) (t_freq_step_khz t) = (dbs', t_requests t) /\
    t_down_count t = down_count dbs'.
Proof.
  intros H. apply eco_dbs_update_inv in H as (dbs1 & load & Hl & Ht).
  exists dbs1. pose proof Hl as Hl'.
  apply eco_calculate_load_inv in Hl' as (acc & _ & _ & ->).
  unfold tick_of_load in Ht. cbv zeta in Ht. injection Ht as -> ->. simpl.
  repeat split; try done. by destruct (eco_step _ _ _).
Qed.

Lemma eco_dbs_update_frame ts dbs dbs' t :
  eco_dbs_update ts dbs = Ok (dbs', t) ->
  policy dbs' = policy dbs /\ tuners dbs' = tuners dbs.
Proof.
  intros H. apply eco_dbs_update_trace in H
    as (dbs1 & _ & Hp & Ht & _ & _ & _ & Hs & _).
  pose proof (eco_step_frame dbs1 (t_effective_load t) (t_freq_step_khz t)) as Hf.
  rewrite Hs in Hf. simpl in Hf. destruct Hf as (-> & -> & _). done.
Qed.

(** ** The state invariant *)

Lemma sample_stats_wf r : is_u64 (wall_time r) -> stats_wf (sample_stats r).
Proof. intros H. split; simpl; [done | apply u64_range]. Qed.

Lemma eco_sample_cpus_stats_wf ts mask : forall acc acc',
  time_wf ts -> Forall stats_wf (s_stats acc) ->
  eco_sample_cpus ts mask acc = Ok acc' ->
  Forall stats_wf (s_stats acc') /\ length (s_stats acc') = length (s_stats acc).
Proof.
  induction mask as [|cpu mask IH]; intros acc acc' Hts Hwf Hrun; simpl in Hrun.
  - by injection Hrun as <-.
  - apply bind_Ok in Hrun as (acc1 & Hone & Hrun).
    unfold eco_sample_cpu in Hone.
    destruct (s_stats acc !! cpu) as [st|] eqn:Hst; [|done].
    assert (Forall stats_wf (s_stats acc1) /\
            length (s_stats acc1) = length (s_stats acc)) as [Hwf1 Hlen1].
    { destruct (0 <? _); injection Hone as <-; simpl;
        (split; [apply Forall_insert; [done | by apply sample_stats_wf]
                | apply length_insert]). }
    destruct (IH acc1 acc' Hts Hwf1 Hrun) as [Hwf' Hlen'].
    split; [done | congruence].
Qed.

Lemma eco_step_down_count_range dbs eff step :
  is_u32 (down_count (eco_step dbs eff step).1).
Proof.
  unfold eco_step, eco_step_up, eco_step_down, eco_hold.
  case_tests; simpl; try apply u32_range; by vm_compute.
Qed.

(** A tick keeps the governor state well-formed. *)
Lemma eco_dbs_update_wf ts dbs dbs' t :
  dbs_wf dbs -> time_wf ts ->
  eco_dbs_update ts dbs = Ok (dbs', t) -> dbs_wf dbs'.
Proof.
  intros [Hpol Htun Hdc Hst Hmask Hnd] Hts Hupd.
  apply eco_dbs_update_inv in Hupd as (dbs1 & load & Hcalc & Hout).
  apply eco_calculate_load_inv in Hcalc as (acc & Hacc & _ & ->).
  destruct (eco_sample_cpus_stats_wf _ _ (sampler_init dbs) _ Hts Hst Hacc)
    as [Hst' Hlen].
  unfold tick_of_load in Hout. cbv zeta in Hout. injection Hout as -> _.
  match goal with |- dbs_wf (eco_step ?d ?e ?s).1 =>
    pose proof (eco_step_frame d e s) as (Hp & Ht & Hs);
    pose proof (eco_step_down_count_range d e s) as Hc
  end.
  split; rewrite ?Hp, ?Ht, ?Hs; simpl; try done.
  by rewrite Hlen.
Qed.

Lemma eco_dbs_timer_wf env dbs dbs' t :
  dbs_wf dbs -> env_wf (length (cpu_stats dbs)) env ->
  eco_dbs_timer env dbs = Ok (dbs', t) ->
  dbs_wf dbs' /\ length (cpu_stats dbs') = length (cpu_stats dbs).
Proof.
  intros [Hpol Htun Hdc Hst Hmask Hnd] [Hepol Hemask Hend Hets] Htick.
  unfold eco_dbs_timer in Htick. split.
  - apply (eco_dbs_update_wf (env_time env) (with_policy dbs (env_policy env)) dbs' t);
      [by split | done | done].
  - apply eco_dbs_update_inv in Htick as (dbs1 & load & Hcalc & Hout).
    apply eco_calculate_load_inv in Hcalc as (acc & Hacc & _ & ->).
    destruct (eco_sample_cpus_stats_wf _ _
                (sampler_init (with_policy dbs (env_policy env))) _ Hets Hst Hacc)
      as [_ Hlen].
    unfold tick_of_load in Hout. cbv zeta in Hout. injection Hout as -> _.
    match goal with |- context [eco_step ?d ?e ?s] =>
      pose proof (eco_step_frame d e s) as (_ & _ & ->) end.
    exact Hlen.
Qed.

(** [eco_init] establishes the invariant. *)
Lemma eco_init_stats_wf ts mask : forall stats stats',
  time_wf ts -> Forall stats_wf stats ->
  eco_init_stats ts mask stats = Ok stats' ->
  Forall stats_wf stats' /\ length stats' = length stats /\
  Forall (fun cpu => (cpu < length stats)%nat) mask.
Proof.
  induction mask as [|cpu mask IH]; intros stats stats' Hts Hwf Hrun;
    simpl in Hrun.
  - injection Hrun as <-. by repeat split.
  - destruct (stats !! cpu) as [st|] eqn:Hst; [|done].
    apply IH in Hrun as (Hwf' & Hlen & Hmask); try done.
    + rewrite length_insert in Hlen, Hmask. repeat split; try done.
      constructor; [|done]. by eapply lookup_lt_Some.
    + apply Forall_insert; [done | by apply sample_stats_wf].
Qed.

Lemma eco_init_wf nr_cpu_ids ts pol dbs :
  policy_wf pol -> NoDup (cpus pol) -> time_wf ts ->
  eco_init nr_cpu_ids ts pol = Ok dbs ->
  dbs_wf dbs /\ tuners dbs = default_tuners /\ down_count dbs = 0.
Proof.
  intros Hpol Hnd Hts Hinit. unfold eco_init in Hinit.
  apply bind_Ok in Hinit as (stats & Hstats & Hinit). injection Hinit as <-.
  apply eco_init_stats_wf in Hstats as (Hwf & Hlen & Hmask); try done.
  - split; [|split; reflexivity].
    split; simpl; try done.
    by rewrite Hlen.
  - apply Forall_replicate. split; vm_compute; intuition discriminate.
Qed.

(** ** Bounded load, bounded requests *)

(** Closing goals about concrete scenarios. *)
Ltac solve_concrete :=
  repeat match goal with
  | |- _ /\ _ => split
  | |- policy_wf _ => split
  | |- tuners_wf _ => split
  | |- dbs_wf _ => split
  | |- stats_wf _ => split
  | |- valid_sample _ _ => split
  | |- valid_bounds _ => split
  | |- Forall _ _ => constructor
  | |- NoDup _ => constructor
  | |- _ ∉ [] => apply not_elem_of_nil
  | |- _ ∉ _ :: _ => apply not_elem_of_cons; split; [done|]
  end;
  try (vm_compute; first [ reflexivity | lia | intuition discriminate ]).

Lemma valid_samples_cons ts stats cpu mask :
  (forall st, stats !! cpu = Some st -> valid_sample st (read_cpu_time ts cpu)) ->
  valid_samples ts stats mask ->
  valid_samples ts stats (cpu :: mask).
Proof.
  intros Hc Hm c st Hin Hlk. apply elem_of_cons in Hin as [->|Hin]; eauto.
Qed.

Lemma valid_samples_nil ts stats : valid_samples ts stats [].
Proof. intros c st Hin. by apply elem_of_nil in Hin. Qed.

(** Where nothing wraps the bounds of C1 hold.  On a valid tick
    (well-typed state, counters that did
    not go backwards, per-unit idle delta at most the wall delta,
    [min <= cur <= max] and [0 < max]) the tick completes and the
    effective load lies in [0, 100]; the computed load lies in [0, 100]
    provided the wall deltas of the group sum to less than 2^64, and
    every request passed to the driver lies within [min, max] provided
    [cur + step] is less than 2^32. *)
Theorem tick_load_and_requests_bounded ts dbs :
  dbs_wf dbs -> valid_tick ts dbs ->
  exists dbs' t, eco_dbs_update ts dbs = Ok (dbs', t) /\
    0 <= t_effective_load t <= 100 /\
    (wall_delta_sum ts (cpu_stats dbs) (cpus (policy dbs)) < U64_MOD ->
       0 <= t_load t <= 100) /\
    (cur (policy dbs) + t_freq_step_khz t < U32_MOD ->
       Forall (in_bounds (policy dbs)) (t_requests t)).
Proof.
  intros Hwf [Hvs [Hb Hmax]].
  destruct Hwf as [Hpol Htun Hdc Hst Hmask Hnd].
  destruct (eco_sample_cpus_total ts (cpus (policy dbs)) (sampler_init dbs))
    as (acc & Hacc); [done|].
  destruct (eco_scale_load_total (policy dbs)
              (total_busy_time acc) (total_wall_time acc))
    as (load & Hload); [lia|].
  pose proof (eco_calculate_load_intro _ _ _ _ Hacc Hload) as Hcalc.
  pose proof (eco_dbs_update_of_load _ _ _ _ Hcalc) as Hupd.
  eexists _, _. split; [exact Hupd|]. simpl.
  split; [apply eco_effective_load_range|]. split.
  - intros Hsum.
    destruct (eco_sample_cpus_valid ts (cpus (policy dbs)) (sampler_init dbs))
      as (acc' & Hacc' & Hle & _); simpl; try done.
    rewrite Hacc in Hacc'. injection Hacc' as <-.
    destruct (eco_scale_load_bounded (policy dbs)
                (total_busy_time acc) (total_wall_time acc))
      as (load' & Hload' & Hrange); try done.
    { destruct Hpol as [_ [? _] _]. lia. }
    congruence.
  - intros Hstep.
    apply (eco_step_in_bounds (with_cpu_stats dbs (s_stats acc))); simpl; try done.
    apply eco_freq_step_khz_range.
Qed.

Lemma tick_load_and_requests_bounded_witness :
  exists dbs' t,
    eco_dbs_update (uniform_time 100000 1000000) busy_1800 = Ok (dbs', t) /\
    t_load t = 81 /\ t_effective_load t = 81 /\
    Forall (in_bounds (policy busy_1800)) (t_requests t).
Proof.
  edestruct (tick_load_and_requests_bounded (uniform_time 100000 1000000) busy_1800)
    as (dbs' & t & Hupd & _ & _ & Hreq).
  - solve_concrete.
  - split; [|solve_concrete].
    apply valid_samples_cons; [|apply valid_samples_nil].
    intros st [= <-]. solve_concrete.
  - exists dbs', t. split; [exact Hupd|].
    vm_compute in Hupd. injection Hupd as <- <-.
    split; [reflexivity|]. split; [reflexivity|].
    apply Hreq. vm_compute. reflexivity.
Defined.

(** C1: the load and every request are meant to be bounded on a valid
    tick, and the code breaks both bounds where its unchecked arithmetic
    wraps.  At the top of the 32-bit range the step-up sum [cur + step]
    wraps before the cap against [max] is applied, and the request falls
    below [min]; and when the wall deltas of two CPUs add up to more
    than 64 bits hold, the raw usage leaves [0, 100] and the computed
    load is 4294767.  Both ticks are valid in the sense of the claim. *)
Lemma tick_bounds_counterexample :
  (dbs_wf top_of_range /\ valid_tick (uniform_time 0 1000) top_of_range /\
   exists dbs' t,
     eco_dbs_update (uniform_time 0 1000) top_of_range = Ok (dbs', t) /\
     t_requests t =
       [ {| target_freq := 42949670; relation := CPUFREQ_RELATION_H |} ] /\
     42949670 < min (policy top_of_range)) /\
  (dbs_wf two_cpus /\ valid_tick long_time two_cpus /\
   exists dbs' t,
     eco_dbs_update long_time two_cpus = Ok (dbs', t) /\
     t_load t = 4294767 /\ 100 < t_load t).
Proof.
  split; (split; [solve_concrete|]); split.
  - split; [|solve_concrete].
    apply valid_samples_cons; [|apply valid_samples_nil].
    intros st [= <-]. solve_concrete.
  - eexists _, _. split; [vm_compute; reflexivity|]. split; [reflexivity|].
    vm_compute. reflexivity.
  - split; [|solve_concrete].
    repeat (apply valid_samples_cons; [intros st [= <-]; solve_concrete|]).
    apply valid_samples_nil.
  - eexists _, _. split; [vm_compute; reflexivity|]. split; reflexivity.
Qed.

(** ** Successive ticks *)

Lemma eco_run_cons env envs dbs dbs' traces :
  eco_run (env :: envs) dbs = Ok (dbs', traces) ->
  exists dbs1 t traces',
    eco_dbs_timer env dbs = Ok (dbs1, t) /\
    eco_run envs dbs1 = Ok (dbs', traces') /\
    traces = t :: traces'.
Proof.
  simpl. intros H.
  apply bind_Ok in H as ([dbs1 t] & Ht & H).
  apply bind_Ok in H as ([dbs2 traces'] & Hr & H).
  injection H as <- <-. by exists dbs1, t, traces'.
Qed.

Lemma eco_run_app envs1 envs2 : forall dbs dbs' traces,
  eco_run (envs1 ++ envs2) dbs = Ok (dbs', traces) ->
  exists dbs1 traces1 traces2,
    eco_run envs1 dbs = Ok (dbs1, traces1) /\
    eco_run envs2 dbs1 = Ok (dbs', traces2) /\
    traces = traces1 ++ traces2.
Proof.
  induction envs1 as [|env envs1 IH]; intros dbs dbs' traces H.
  - by exists dbs, [], traces.
  - rewrite <- app_comm_cons in H.
    apply eco_run_cons in H as (dbs1 & t & traces' & Ht & Hr & ->).
    apply IH in Hr as (dbs2 & traces1 & traces2 & Hr1 & Hr2 & ->).
    exists dbs2, (t :: traces1), traces2. simpl. rewrite Ht. simpl.
    rewrite Hr1. done.
Qed.

(** A tick under the policy the host holds at that moment. *)
Lemma eco_dbs_timer_trace env dbs dbs' t :
  eco_dbs_timer env dbs = Ok (dbs', t) ->
  tuners dbs' = tuners dbs /\ policy dbs' = env_policy env /\
  0 <= t_effective_load t <= 100 /\
  0 < t_freq_step_khz t /\
  t_down_count t = down_count dbs' /\
  exists dbs1,
    policy dbs1 = env_policy env /\ tuners dbs1 = tuners dbs /\
    down_count dbs1 = down_count dbs /\
    eco_step dbs1 (t_effective_load t) (t_freq_step_khz t) = (dbs', t_requests t).
Proof.
  unfold eco_dbs_timer. intros H.
  destruct (eco_dbs_update_frame _ _ _ _ H) as [Hp Ht].
  apply eco_dbs_update_trace in H
    as (dbs1 & _ & Hp1 & Ht1 & Hd1 & He & Hs & Hstep & Hdc).
  simpl in *. repeat split; try done.
  - rewrite He. apply eco_effective_load_range.
  - rewrite He. apply eco_effective_load_range.
  - rewrite Hs. apply eco_freq_step_khz_range.
  - by exists dbs1.
Qed.

(** While the counter stays short of [sampling_down_factor], ticks below
    the down threshold, and not above the up threshold, only count. *)
Lemma eco_run_counts envs : forall dbs dbs' traces,
  eco_run envs dbs = Ok (dbs', traces) ->
  Forall (fun t => t_effective_load t < down_threshold (tuners dbs) /\
                   t_effective_load t <= up_threshold (tuners dbs)) traces ->
  0 <= down_count dbs ->
  down_count dbs + Z.of_nat (length envs) < sampling_down_factor (tuners dbs) ->
  sampling_down_factor (tuners dbs) < U32_MOD ->
  Forall (fun t => t_requests t = []) traces /\
  length traces = length envs /\
  tuners dbs' = tuners dbs /\
  down_count dbs' = down_count dbs + Z.of_nat (length envs).
Proof.
  induction envs as [|env envs IH]; intros dbs dbs' traces Hrun Hlow Hdc Hn Hu.
  - simpl in Hrun. injection Hrun as <- <-. simpl. repeat split; [done | lia].
  - apply eco_run_cons in Hrun as (dbs1 & t & traces' & Ht & Hr & ->).
    apply Forall_cons in Hlow as [[Hlt Hnotup] Hlow].
    apply eco_dbs_timer_trace in Ht
      as (Htun & _ & Heff & _ & _ & dbs0 & _ & Htun0 & Hdc0 & Hstep).
    rewrite length_cons, Nat2Z.inj_succ in Hn.
    rewrite eco_step_below in Hstep by (rewrite ?Htun0; lia).
    assert (u32 (down_count dbs0 + 1) = down_count dbs + 1) as Hcount.
    { rewrite Hdc0. apply u32_small. mach_unfold. lia. }
    rewrite eco_step_down_held in Hstep by (rewrite Htun0, Hcount; lia).
    injection Hstep as Hdbs1 Hreqs.
    assert (down_count dbs1 = down_count dbs + 1) as Hdc1.
    { rewrite <- Hdbs1. simpl. exact Hcount. }
    destruct (IH dbs1 dbs' traces' Hr) as (Hreq & Hlen & Htun' & Hdc');
      rewrite ?Htun; try done; try lia.
    repeat split.
    + by constructor.
    + simpl. by rewrite Hlen.
    + congruence.
    + rewrite Hdc', Hdc1, length_cons, Nat2Z.inj_succ. lia.
Qed.

(** ** Debounced step-down *)

(** C2, amended: with [sampling_down_factor = N], starting from
    [down_count = 0], a run of [N] ticks whose effective load is each
    strictly below [down_threshold] and not above [up_threshold] (as
    every tick below [down_threshold] is when
    [down_threshold <= up_threshold]) emits no request on the first
    [N - 1] ticks and exactly one request on the [N]th tick, a step-down
    (rounding down, to [max(min, cur - step)], below the current
    frequency) when [cur > min] at that tick; [down_count] is 0 again
    when it fires. *)
Theorem debounce_fires_on_nth_tick N efront elast dbs dbs' traces :
  sampling_down_factor (tuners dbs) = N -> is_u32 N ->
  Z.of_nat (length (efront ++ [elast])) = N ->
  down_count dbs = 0 ->
  policy_wf (env_policy elast) ->
  min (env_policy elast) < cur (env_policy elast) ->
  eco_run (efront ++ [elast]) dbs = Ok (dbs', traces) ->
  Forall (fun t => t_effective_load t < down_threshold (tuners dbs) /\
                   t_effective_load t <= up_threshold (tuners dbs)) traces ->
  exists front last,
    traces = front ++ [last] /\ length front = length efront /\
    Forall (fun t => t_requests t = []) front /\
    t_requests last =
      [ {| target_freq :=
             Z.max (min (env_policy elast))
                   (cur (env_policy elast) - t_freq_step_khz last);
           relation := CPUFREQ_RELATION_L |} ] /\
    min (env_policy elast)
      <= Z.max (min (env_policy elast))
               (cur (env_policy elast) - t_freq_step_khz last)
      < cur (env_policy elast) /\
    t_down_count last = 0 /\ down_count dbs' = 0.
Proof.
  intros HN Hu Hlen Hzero [Hcur Hmin _] Hgt Hrun Hlow.
  rewrite length_app, Nat2Z.inj_add in Hlen. simpl in Hlen.
  apply eco_run_app in Hrun as (dbs1 & front & tail & Hfront & Hlast & ->).
  apply eco_run_cons in Hlast as (dbs2 & last & rest & Ht & Hnil & ->).
  simpl in Hnil. injection Hnil as <- <-.
  apply Forall_app in Hlow as [Hlowf Hlowl].
  apply Forall_cons in Hlowl as [[Hlowl Hnotup] _].
  destruct (eco_run_counts efront dbs dbs1 front Hfront)
    as (Hreq & Hlenf & Htun1 & Hdc1); try done; try (mach_unfold; lia).
  apply eco_dbs_timer_trace in Ht
    as (_ & _ & Heff & Hstep & Hdc & dbs0 & Hp0 & Htun0 & Hdc0 & Hs).
  rewrite eco_step_below in Hs by (rewrite ?Htun0, ?Htun1; lia).
  assert (u32 (down_count dbs0 + 1) = N) as Hcount.
  { rewrite Hdc0, Hdc1, Hzero. replace (0 + _ + 1) with N by lia.
    by apply u32_small. }
  rewrite eco_step_down_fired in Hs;
    rewrite ?Hp0, ?Htun0, ?Htun1, ?Hcount; try done; try lia.
  rewrite Hp0 in Hs.
  destruct (Z.ltb_spec (min (env_policy elast)) (cur (env_policy elast)));
    [|lia].
  injection Hs as Hdbs2 Hreqs.
  exists front, last. repeat split; try done; try lia.
  - rewrite Hdc, <- Hdbs2. done.
  - rewrite <- Hdbs2. done.
Qed.

Lemma debounce_fires_on_nth_tick_witness :
  exists dbs' traces,
    eco_run (idle_ticks ++ [idle_tick_3]) debounced = Ok (dbs', traces) /\
    exists front last,
      traces = front ++ [last] /\ length front = length idle_ticks /\
      Forall (fun t => t_requests t = []) front /\
      t_requests last =
        [ {| target_freq := Z.max 800000 (1800000 - t_freq_step_khz last);
             relation := CPUFREQ_RELATION_L |} ] /\
      800000 <= Z.max 800000 (1800000 - t_freq_step_khz last) < 1800000 /\
      t_down_count last = 0 /\ down_count dbs' = 0.
Proof.
  eexists _, _. split; [vm_compute; reflexivity|].
  apply (debounce_fires_on_nth_tick 3 idle_ticks idle_tick_3 debounced).
  - reflexivity.
  - solve_concrete.
  - reflexivity.
  - reflexivity.
  - solve_concrete.
  - vm_compute. reflexivity.
  - vm_compute. reflexivity.
  - repeat constructor; vm_compute; discriminate.
Defined.

(** C2 as stated fails when the thresholds are the wrong way round: the
    up threshold is tested first, so with [up_threshold = 10],
    [down_threshold = 50] and [sampling_down_factor = 1] a tick whose
    effective load is 29, below [down_threshold], makes a step-up
    request and no step-down request. *)
Lemma debounce_counterexample :
  sampling_down_factor (tuners inverted) = 1 /\ down_count inverted = 0 /\
  min (policy inverted) < cur (policy inverted) /\
  exists dbs' t,
    eco_run [env_of (policy inverted) 420000 1000000] inverted
      = Ok (dbs', [t]) /\
    t_effective_load t = 29 /\
    t_effective_load t < down_threshold (tuners inverted) /\
    t_requests t =
      [ {| target_freq := 1100000; relation := CPUFREQ_RELATION_H |} ].
Proof.
  split; [reflexivity|]. split; [reflexivity|]. split; [reflexivity|].
  eexists _, _. split; [vm_compute; reflexivity|].
  repeat split.
Qed.

(** ** Immediate step-up *)

(** The step-up branch as the code computes it.  On any tick whose
    effective load is strictly above
    [up_threshold], [down_count] is reset to 0 whatever it was before,
    and if [cur < max] one step-up request is emitted at once, for
    [min(cur + step, max)] with the sum taken modulo 2^32; it is
    [min(cur + step, max)] whenever [cur + step] fits in 32 bits.  If
    [cur >= max] nothing is requested. *)
Theorem step_up_is_immediate ts dbs dbs' t :
  eco_dbs_update ts dbs = Ok (dbs', t) ->
  up_threshold (tuners dbs) < t_effective_load t ->
  is_u32 (cur (policy dbs)) ->
  down_count dbs' = 0 /\ t_down_count t = 0 /\
  (cur (policy dbs) < max (policy dbs) ->
     t_requests t =
       [ {| target_freq :=
              Z.min (u32 (cur (policy dbs) + t_freq_step_khz t)) (max (policy dbs));
            relation := CPUFREQ_RELATION_H |} ]) /\
  (cur (policy dbs) < max (policy dbs) ->
   cur (policy dbs) + t_freq_step_khz t < U32_MOD ->
     t_requests t =
       [ {| target_freq :=
              Z.min (cur (policy dbs) + t_freq_step_khz t) (max (policy dbs));
            relation := CPUFREQ_RELATION_H |} ]) /\
  (max (policy dbs) <= cur (policy dbs) -> t_requests t = []).
Proof.
  intros Hupd Hup Hcur.
  apply eco_dbs_update_trace in Hupd
    as (dbs1 & _ & Hp & Ht & _ & He & Hs & Hstep & Hdc).
  assert (0 <= t_effective_load t <= 100) as Hr
    by (rewrite He; apply eco_effective_load_range).
  assert (0 < t_freq_step_khz t) as Hpos
    by (rewrite Hs; apply eco_freq_step_khz_range).
  rewrite eco_step_above, eco_step_up_eq in Hstep by (rewrite ?Ht; lia).
  rewrite Hp in Hstep. injection Hstep as Hdbs' Hreqs.
  assert (down_count dbs' = 0) as Hzero by (by rewrite <- Hdbs').
  split; [done|]. split; [congruence|].
  destruct (Z.ltb_spec (cur (policy dbs)) (max (policy dbs))).
  - repeat split; intros; try lia; try done.
    rewrite <- Hreqs. by rewrite u32_small by (mach_unfold; lia).
  - repeat split; intros; try lia; done.
Qed.

Lemma step_up_is_immediate_witness :
  exists dbs' t,
    eco_dbs_update (uniform_time 100000 1000000) busy_1800 = Ok (dbs', t) /\
    down_count dbs' = 0 /\
    t_requests t =
      [ {| target_freq := 1900000; relation := CPUFREQ_RELATION_H |} ].
Proof.
  eexists _, _. split; [vm_compute; reflexivity|].
  edestruct (step_up_is_immediate (uniform_time 100000 1000000) busy_1800)
    as (Hdc & _ & _ & Hreq & _).
  - vm_compute. reflexivity.
  - vm_compute. reflexivity.
  - solve_concrete.
  - split; [exact Hdc|]. apply Hreq; vm_compute; reflexivity.
Defined.

(** C3: a tick above [up_threshold] with [cur < max] is meant to request
    [min(cur + step, max)], and the code does not when [cur + step]
    exceeds 32 bits: the unchecked sum wraps before it is capped, and
    with [cur = 4290000000] and [max = 4294967295] the request is for
    37982376, below the current frequency. *)
Lemma step_up_counterexample :
  exists dbs' t,
    eco_dbs_update (uniform_time 0 1000) near_top = Ok (dbs', t) /\
    up_threshold (tuners near_top) < t_effective_load t /\
    cur (policy near_top) < max (policy near_top) /\
    t_freq_step_khz t = 42949672 /\
    t_requests t =
      [ {| target_freq := 37982376; relation := CPUFREQ_RELATION_H |} ] /\
    37982376 <>
      Z.min (cur (policy near_top) + t_freq_step_khz t) (max (policy near_top)).
Proof.
  eexists _, _. split; [vm_compute; reflexivity|].
  repeat split; vm_compute; congruence.
Qed.

(** ** Frequency invariance *)

(** Where the 32-bit product does not wrap the scaling of C4 holds: for
    a fixed raw usage, and as long as
    [raw_usage * cur] does not wrap, the computed load is
    [raw_usage * cur / max] (integer division); halving [cur] with [max]
    held fixed then halves the load, again as an integer division. *)
Theorem load_scales_with_frequency pol pol' busy wall busy' wall' :
  0 < wall -> 0 < wall' ->
  eco_raw_usage busy' wall' = eco_raw_usage busy wall ->
  0 < max pol -> max pol' = max pol ->
  0 <= cur pol' -> cur pol = 2 * cur pol' ->
  eco_raw_usage busy wall * cur pol < U32_MOD ->
  exists load,
    eco_scale_load pol busy wall = Ok load /\
    load = eco_raw_usage busy wall * cur pol / max pol /\
    eco_scale_load pol' busy' wall' = Ok (load / 2).
Proof.
  intros Hw Hw' Hraw Hmax Hmax' Hcur' Hhalf Hfit.
  assert (0 <= eco_raw_usage busy wall) as Hr
    by (unfold eco_raw_usage; apply u32_range).
  rewrite !eco_scale_load_time by done.
  rewrite Hraw, Hmax', !udiv_Ok by lia.
  rewrite !u32_small by (mach_unfold; nia).
  eexists. split; [reflexivity|]. split; [reflexivity|].
  f_equal. rewrite Hhalf.
  rewrite Z.div_div by lia.
  replace (eco_raw_usage busy wall * (2 * cur pol'))
    with (eco_raw_usage busy wall * cur pol' * 2) by lia.
  by rewrite Z.div_mul_cancel_r by lia.
Qed.

Lemma load_scales_with_frequency_witness :
  exists load,
    eco_scale_load (policy_of 800000 1000000 2000000) 900 1000 = Ok load /\
    load = eco_raw_usage 900 1000 * 1000000 / 2000000 /\
    eco_scale_load (policy_of 800000 500000 2000000) 900 1000 = Ok (load / 2).
Proof.
  apply (load_scales_with_frequency
           (policy_of 800000 1000000 2000000) (policy_of 800000 500000 2000000)
           900 1000 900 1000); vm_compute; first [reflexivity | discriminate].
Defined.

(** C4: the load is meant to scale with [cur / max], and the code does
    not where the unchecked 32-bit product [raw_usage * cur] wraps: at
    full usage and [cur = max = 2^26] kHz the load is 36, not 100, and
    at half that frequency it is 50, which is not half of 36. *)
Lemma load_scaling_counterexample :
  eco_raw_usage 1000 1000 = 100 /\
  eco_scale_load fast_policy 1000 1000 = Ok 36 /\
  eco_scale_load half_policy 1000 1000 = Ok 50 /\
  cur fast_policy = 2 * cur half_policy /\ max half_policy = max fast_policy /\
  36 <> 100 * cur fast_policy / max fast_policy /\
  50 <> 36 / 2.
Proof. repeat split; vm_compute; congruence. Qed.

(** ** Skipped samples *)

(** C5, amended: the sampler never reports an error for a unit of the
    per-CPU array and always stores the new reading ([wall_time] and
    [wall_time - idle_time]).  A unit whose wall-time delta is zero
    contributes nothing to the totals.  The delta is an unsigned 64-bit
    difference, so any other reading, including one below the stored
    wall time, has a positive delta and is accumulated. *)
Theorem zero_delta_sample_is_skipped ts cpu acc st :
  s_stats acc !! cpu = Some st ->
  is_u64 (prev_total_time st) -> is_u64 (wall_time (read_cpu_time ts cpu)) ->
  exists acc',
    eco_sample_cpu ts cpu acc = Ok acc' /\
    s_stats acc' =
      <[cpu := {| prev_total_time := wall_time (read_cpu_time ts cpu);
                  prev_busy_time :=
                    u64 (wall_time (read_cpu_time ts cpu)
                         - idle_time (read_cpu_time ts cpu)) |}]> (s_stats acc) /\
    (wall_time (read_cpu_time ts cpu) = prev_total_time st ->
       total_busy_time acc' = total_busy_time acc /\
       total_wall_time acc' = total_wall_time acc) /\
    (wall_time (read_cpu_time ts cpu) <> prev_total_time st ->
       0 < sample_dt st (read_cpu_time ts cpu) /\
       total_busy_time acc' =
         u64 (total_busy_time acc + sample_db st (read_cpu_time ts cpu)) /\
       total_wall_time acc' =
         u64 (total_wall_time acc + sample_dt st (read_cpu_time ts cpu))).
Proof.
  intros Hst Hprev Hwall. unfold eco_sample_cpu. rewrite Hst.
  set (r := read_cpu_time ts cpu) in *.
  destruct (Z.ltb_spec 0 (sample_dt st r)) as [Hpos|Hzero];
    eexists; (split; [reflexivity|]); simpl; (split; [reflexivity|]); split.
  - intros Heq. unfold sample_dt in Hpos. rewrite Heq, Z.sub_diag in Hpos.
    vm_compute in Hpos. discriminate.
  - done.
  - done.
  - intros Hne. exfalso. unfold sample_dt in Hzero. mach_lia.
Qed.

Lemma zero_delta_sample_is_skipped_witness :
  exists acc',
    eco_sample_cpu (uniform_time 4000 5000) 0 after_reset = Ok acc' /\
    s_stats acc' = [ {| prev_total_time := 5000; prev_busy_time := 1000 |} ] /\
    total_busy_time acc' = 0 /\ total_wall_time acc' = 0.
Proof.
  edestruct (zero_delta_sample_is_skipped (uniform_time 4000 5000) 0%nat after_reset)
    as (acc' & Hrun & Hstats & Hzero & _).
  - reflexivity.
  - solve_concrete.
  - solve_concrete.
  - exists acc'. split; [exact Hrun|]. split; [exact Hstats|].
    apply Hzero. reflexivity.
Defined.

(** C5 as stated fails for a negative delta: a reading below the stored
    wall time is not skipped, its wrapped delta is added to the totals. *)
Lemma negative_delta_counterexample :
  wall_time (read_cpu_time (uniform_time 100 1000) 0) - 5000 < 0 /\
  eco_sample_cpu (uniform_time 100 1000) 0 after_reset =
    Ok {| s_stats := [ {| prev_total_time := 1000; prev_busy_time := 900 |} ];
          total_busy_time := 18446744073709549516;
          total_wall_time := 18446744073709547616 |}.
Proof. split; vm_compute; reflexivity. Qed.

(** ** No elapsed time *)

(** C6, amended: on a tick whose accumulated wall-time delta is 0 the
    tick completes with a computed load of 0.  The effective load is then
    [clamp(-powersave_bias, 0, 100)] for every bias other than [INT_MIN],
    whose negation does not fit an [int]; so for a non-negative
    [powersave_bias] and a positive [down_threshold] it is 0 and the
    controller takes the below-[down_threshold] path: [down_count] is
    incremented, and reset to 0 if it thereby reaches
    [sampling_down_factor]. *)
Theorem no_elapsed_time_takes_down_path ts dbs acc :
  eco_sample_cpus ts (cpus (policy dbs)) (sampler_init dbs) = Ok acc ->
  total_wall_time acc = 0 ->
  tuners_wf (tuners dbs) ->
  exists dbs' t,
    eco_dbs_update ts dbs = Ok (dbs', t) /\
    t_load t = 0 /\
    (INT_MIN < powersave_bias (tuners dbs) ->
       t_effective_load t =
         Z.max 0 (Z.min 100 (- powersave_bias (tuners dbs)))) /\
    (0 <= powersave_bias (tuners dbs) -> 0 < down_threshold (tuners dbs) ->
       t_effective_load t = 0 /\
       (dbs', t_requests t) =
         eco_step_down (with_cpu_stats dbs (s_stats acc)) (t_freq_step_khz t) /\
       down_count dbs' = down_count_after_down dbs).
Proof.
  intros Hacc Hwall [Hup _ _ _ Hs32].
  assert (eco_scale_load (policy dbs) (total_busy_time acc) (total_wall_time acc)
          = Ok 0) as Hload by (apply eco_scale_load_no_time; lia).
  pose proof (eco_calculate_load_intro _ _ _ _ Hacc Hload) as Hcalc.
  pose proof (eco_dbs_update_of_load _ _ _ _ Hcalc) as Hupd.
  eexists _, _. split; [exact Hupd|]. simpl.
  split; [done|]. split.
  { intros Hmin.
    assert (is_u32 0) as H0 by (vm_compute; intuition discriminate).
    assert (0 <= INT_MAX) as H1 by (vm_compute; discriminate).
    assert (0 - powersave_bias (tuners dbs) <= INT_MAX) as H2
      by (mach_unfold; lia).
    rewrite (eco_effective_load_clamp 0 _ H0 H1 Hs32 H2).
    by rewrite Z.sub_0_l. }
  intros Hbias Hdown.
  rewrite eco_effective_load_zero by done.
  split; [done|].
  rewrite eco_step_below by (simpl; mach_unfold; lia).
  split; [by destruct (eco_step_down _ _)|].
  rewrite eco_step_down_count. unfold down_count_after_down. simpl. reflexivity.
Qed.

Lemma no_elapsed_time_takes_down_path_witness :
  exists dbs' t,
    eco_dbs_update (uniform_time 0 0) debounced = Ok (dbs', t) /\
    t_load t = 0 /\ t_effective_load t = 0 /\ t_requests t = [] /\
    down_count dbs' = 1.
Proof.
  edestruct (no_elapsed_time_takes_down_path (uniform_time 0 0) debounced)
    as (dbs' & t & Hupd & Hload & _ & Hdown).
  - vm_compute. reflexivity.
  - reflexivity.
  - solve_concrete.
  - destruct Hdown as (Heff & Hstep & Hdc); [vm_compute; discriminate | reflexivity |].
    exists dbs', t.
    split; [exact Hupd|]. split; [exact Hload|]. split; [exact Heff|].
    split; [|exact Hdc].
    vm_compute in Hstep. by injection Hstep.
Defined.

(** C6 as stated fails under a negative bias: with [powersave_bias = -50]
    a tick without elapsed time has load 0 but effective load 50, which
    is inside the hysteresis band; the counter is reset, not incremented. *)
Lemma no_elapsed_time_counterexample :
  exists acc dbs' t,
    eco_sample_cpus (uniform_time 0 0) (cpus (policy biased_up))
      (sampler_init biased_up) = Ok acc /\
    total_wall_time acc = 0 /\
    0 < down_threshold (tuners biased_up) /\
    eco_dbs_update (uniform_time 0 0) biased_up = Ok (dbs', t) /\
    t_load t = 0 /\ t_effective_load t = 50 /\
    ~ t_effective_load t < down_threshold (tuners biased_up) /\
    down_count biased_up = 1 /\ down_count dbs' = 0.
Proof.
  eexists _, _, _. split; [vm_compute; reflexivity|].
  split; [reflexivity|]. split; [reflexivity|].
  split; [vm_compute; reflexivity|].
  repeat split. vm_compute. congruence.
Qed.

(** ** The hysteresis band *)

(** C7: over any sequence of ticks whose effective load is each strictly
    between [down_threshold] and [up_threshold], no request is emitted
    and [down_count] is 0 after every tick. *)
Theorem hysteresis_band_holds envs : forall dbs dbs' traces,
  eco_run envs dbs = Ok (dbs', traces) ->
  Forall (fun t => down_threshold (tuners dbs) < t_effective_load t
                   /\ t_effective_load t < up_threshold (tuners dbs)) traces ->
  Forall (fun t => t_requests t = [] /\ t_down_count t = 0) traces /\
  length traces = length envs /\
  (down_count dbs = 0 -> down_count dbs' = 0).
Proof.
  induction envs as [|env envs IH]; intros dbs dbs' traces Hrun Hband.
  - simpl in Hrun. injection Hrun as <- <-. by repeat split.
  - apply eco_run_cons in Hrun as (dbs1 & t & traces' & Ht & Hr & ->).
    apply Forall_cons in Hband as [[Hlo Hhi] Hband].
    apply eco_dbs_timer_trace in Ht
      as (Htun & _ & Heff & _ & Hdc & dbs0 & _ & Htun0 & _ & Hstep).
    rewrite eco_step_between in Hstep by (rewrite ?Htun0; lia).
    injection Hstep as Hdbs1 Hreqs.
    assert (down_count dbs1 = 0) as Hzero by (by rewrite <- Hdbs1).
    destruct (IH dbs1 dbs' traces' Hr) as (Hall & Hlen & Hkeep);
      [by rewrite Htun|].
    repeat split.
    + constructor; [|done]. split; [done | congruence].
    + simpl. by rewrite Hlen.
    + intros _. by apply Hkeep.
Qed.

Lemma hysteresis_band_holds_witness :
  exists dbs' traces,
    eco_run half_busy_ticks busy_1800 = Ok (dbs', traces) /\
    Forall (fun t => t_requests t = [] /\ t_down_count t = 0) traces /\
    length traces = 2%nat /\ down_count dbs' = 0.
Proof.
  eexists _, _. split; [vm_compute; reflexivity|].
  edestruct (hysteresis_band_holds half_busy_ticks busy_1800) as (Hall & Hlen & Hdc).
  - vm_compute. reflexivity.
  - repeat constructor.
  - split; [exact Hall|]. split; [exact Hlen|]. by apply Hdc.
Defined.

(** ** The bias adjuster *)

(** C8: the effective load of a tick is a function of the computed load
    and [powersave_bias] alone, [eco_effective_load]; it is
    [clamp(load - powersave_bias, 0, 100)] whenever the subtraction fits an
    [int], as it does for a load in [0, 100] and a bias in [-100, 100];
    with bias 30 and load 40 it is 10, and with [down_threshold = 20]
    (and [up_threshold] not below it) the tick takes the step-down path,
    subject to the debounce of [sampling_down_factor]. *)
Theorem bias_adjuster_clamps :
  (forall load bias,
     is_u32 load -> load <= INT_MAX -> is_s32 bias -> load - bias <= INT_MAX ->
     eco_effective_load load bias = Z.max 0 (Z.min 100 (load - bias))) /\
  (forall ts dbs dbs' t,
     eco_dbs_update ts dbs = Ok (dbs', t) ->
     t_effective_load t =
       eco_effective_load (t_load t) (powersave_bias (tuners dbs))) /\
  eco_effective_load 40 30 = 10 /\
  (forall ts dbs dbs' t,
     eco_dbs_update ts dbs = Ok (dbs', t) ->
     powersave_bias (tuners dbs) = 30 -> t_load t = 40 ->
     down_threshold (tuners dbs) = 20 -> 20 <= up_threshold (tuners dbs) ->
     t_effective_load t = 10 /\
     down_count dbs' = down_count_after_down dbs /\
     exists dbs1,
       eco_calculate_load ts dbs = Ok (dbs1, 40) /\
       eco_step_down dbs1 (t_freq_step_khz t) = (dbs', t_requests t)).
Proof.
  split; [exact eco_effective_load_clamp|].
  split.
  { intros ts dbs dbs' t H.
    by apply eco_dbs_update_trace in H as (? & _ & _ & _ & _ & He & _). }
  split; [reflexivity|].
  intros ts dbs dbs' t H Hbias Hload Hdown Hup.
  apply eco_dbs_update_trace in H
    as (dbs1 & Hcalc & _ & Htun & Hdc1 & He & _ & Hstep & _).
  rewrite Hbias, Hload in He. change (eco_effective_load 40 30) with 10 in He.
  rewrite He in *.
  rewrite eco_step_below in Hstep by (rewrite ?Htun; lia).
  split; [done|]. split.
  - pose proof (eco_step_down_count dbs1 (t_freq_step_khz t)) as Hc.
    rewrite Hstep in Hc. simpl in Hc. rewrite Hc.
    unfold down_count_after_down. by rewrite Htun, Hdc1.
  - exists dbs1. by rewrite <- Hload.
Qed.

Lemma bias_adjuster_clamps_witness :
  eco_effective_load 40 30 = Z.max 0 (Z.min 100 (40 - 30)) /\
  exists dbs' t,
    eco_dbs_update (uniform_time 500000 1000000) biased_down = Ok (dbs', t) /\
    t_load t = 40 /\ t_effective_load t = 10 /\ down_count dbs' = 0.
Proof.
  destruct bias_adjuster_clamps as (Hclamp & _ & _ & Hscenario).
  split.
  - apply Hclamp; vm_compute; intuition discriminate.
  - eexists _, _. split; [vm_compute; reflexivity|]. split; [reflexivity|].
    edestruct (Hscenario (uniform_time 500000 1000000) biased_down)
      as (Heff & Hdc & _); [vm_compute; reflexivity | reflexivity .. | |].
    + vm_compute. discriminate.
    + split; [exact Heff | exact Hdc].
Defined.

(** ** Step size *)

(** A request built from a non-zero step never asks for the current
    frequency. *)
Lemma eco_step_moves dbs eff step :
  policy_wf (policy dbs) -> 0 < step < U32_MOD ->
  Forall (fun r => target_freq r <> cur (policy dbs)) (eco_step dbs eff step).2.
Proof.
  intros [Hc Hm Hx] Hs.
  unfold eco_step, eco_step_up, eco_step_down, eco_hold.
  pose proof (u32_range (cur (policy dbs) + step)) as Hup.
  assert (u32 (cur (policy dbs) + step) <> cur (policy dbs)) as Hne by mach_lia.
  destruct (Z.ltb_spec step (cur (policy dbs))).
  - rewrite (u32_small (cur (policy dbs) - step)) by (mach_unfold; lia).
    case_tests; simpl; repeat constructor; simpl; lia.
  - case_tests; simpl; repeat constructor; simpl; lia.
Qed.

(** C9: on every tick the step size is non-zero.  It is computed as
    [max * freq_step / 100] (an [unsigned int] product, the mathematical
    one when it fits in 32 bits); whenever that yields 0, as it does for
    [freq_step = 0], 1000 is substituted.  The step-up and step-down
    requests are built from the substituted value, so that none of them
    asks for the current frequency. *)
Theorem step_size_never_zero ts dbs dbs' t :
  eco_dbs_update ts dbs = Ok (dbs', t) ->
  policy_wf (policy dbs) ->
  let computed := u32 (max (policy dbs) * freq_step (tuners dbs)) / 100 in
  t_freq_step_khz t <> 0 /\ 0 < t_freq_step_khz t < U32_MOD /\
  t_freq_step_khz t = (if computed =? 0 then 1000 else computed) /\
  (0 <= max (policy dbs) * freq_step (tuners dbs) < U32_MOD ->
     computed = max (policy dbs) * freq_step (tuners dbs) / 100) /\
  (freq_step (tuners dbs) = 0 -> t_freq_step_khz t = 1000) /\
  (exists dbs1,
     eco_calculate_load ts dbs = Ok (dbs1, t_load t) /\
     eco_step dbs1 (t_effective_load t) (t_freq_step_khz t)
       = (dbs', t_requests t)) /\
  Forall (fun r => target_freq r <> cur (policy dbs)) (t_requests t).
Proof.
  intros H Hwf computed.
  apply eco_dbs_update_trace in H
    as (dbs1 & Hcalc & Hp & _ & _ & _ & Hs & Hstep & _).
  pose proof (eco_freq_step_khz_range (max (policy dbs)) (freq_step (tuners dbs)))
    as Hr.
  rewrite <- Hs in Hr.
  split; [lia|]. split; [done|]. split; [exact Hs|]. split.
  { intros Hfit. unfold computed. by rewrite u32_small. }
  split.
  { intros Hzero. rewrite Hs, Hzero. unfold eco_freq_step_khz.
    rewrite Z.mul_0_r. reflexivity. }
  split; [by exists dbs1|].
  pose proof (eco_step_moves dbs1 (t_effective_load t) (t_freq_step_khz t)) as Hm.
  rewrite Hstep, Hp in Hm. by apply Hm.
Qed.

Lemma step_size_never_zero_witness :
  exists dbs' t,
    eco_dbs_update (uniform_time 100000 1000000) busy_1800 = Ok (dbs', t) /\
    t_freq_step_khz t = 100000 /\
    Forall (fun r => target_freq r <> 1800000) (t_requests t).
Proof.
  eexists _, _. split; [vm_compute; reflexivity|]. split; [reflexivity|].
  edestruct (step_size_never_zero (uniform_time 100000 1000000) busy_1800)
    as (_ & _ & _ & _ & _ & _ & Hmoves).
  - vm_compute. reflexivity.
  - solve_concrete.
  - exact Hmoves.
Defined.

(** ** Division safety *)

Lemma eco_scale_load_Fault pol busy wall f :
  eco_scale_load pol busy wall = Fault f <->
  f = DivideByZero /\ max pol = 0 /\ 0 < wall.
Proof.
  destruct (Z.le_gt_cases wall 0) as [Hw|Hw].
  - rewrite eco_scale_load_no_time by done. split; [done | lia].
  - rewrite eco_scale_load_time by lia. split.
    + intros H. apply udiv_Fault in H as [-> ->]. repeat split; lia.
    + intros (-> & -> & _). apply udiv_zero.
Qed.

Lemma eco_sample_cpu_Fault ts cpu acc f :
  eco_sample_cpu ts cpu acc = Fault f -> f = OutOfBounds.
Proof.
  unfold eco_sample_cpu. destruct (s_stats acc !! cpu); [|congruence].
  by destruct (0 <? _).
Qed.

Lemma eco_sample_cpus_Fault ts mask : forall acc f,
  eco_sample_cpus ts mask acc = Fault f -> f = OutOfBounds.
Proof.
  induction mask as [|cpu mask IH]; intros acc f H; simpl in H; [done|].
  apply bind_Fault in H as [H | (acc' & _ & H)].
  - by apply eco_sample_cpu_Fault in H.
  - by apply IH in H.
Qed.

Lemma eco_dbs_update_Fault ts dbs f :
  eco_dbs_update ts dbs = Fault f <-> eco_calculate_load ts dbs = Fault f.
Proof.
  unfold eco_dbs_update.
  destruct (eco_calculate_load ts dbs) as [[dbs1 load]|f']; simpl.
  - destruct (eco_step _ _ _). split; discriminate.
  - split; intros [= ->]; reflexivity.
Qed.

(** C10, amended: with [max > 0] no tick divides by zero.  The division
    by the accumulated wall time is only reached when that total is
    positive, and apart from the constant 100 the only other divisor is
    [max]: the load computation divides by zero exactly when [max = 0]
    and the accumulated wall time is positive. *)
Theorem tick_division_safety ts dbs :
  (0 < max (policy dbs) -> eco_dbs_update ts dbs <> Fault DivideByZero) /\
  (forall busy wall f,
     eco_scale_load (policy dbs) busy wall = Fault f ->
     f = DivideByZero /\ max (policy dbs) = 0 /\ 0 < wall) /\
  (forall acc,
     eco_sample_cpus ts (cpus (policy dbs)) (sampler_init dbs) = Ok acc ->
     (eco_calculate_load ts dbs = Fault DivideByZero <->
      max (policy dbs) = 0 /\ 0 < total_wall_time acc) /\
     (eco_dbs_update ts dbs = Fault DivideByZero <->
      max (policy dbs) = 0 /\ 0 < total_wall_time acc)).
Proof.
  assert (forall acc,
    eco_sample_cpus ts (cpus (policy dbs)) (sampler_init dbs) = Ok acc ->
    (eco_calculate_load ts dbs = Fault DivideByZero <->
     max (policy dbs) = 0 /\ 0 < total_wall_time acc)) as Hcalc.
  { intros acc Hacc. unfold eco_calculate_load. rewrite Hacc. simpl.
    rewrite bind_Fault, eco_scale_load_Fault. split.
    - intros [(_ & H) | (load & _ & [=])]. exact H.
    - intros H. left. by split. }
  split; [|split].
  - intros Hmax H. apply eco_dbs_update_Fault in H.
    destruct (eco_sample_cpus ts (cpus (policy dbs)) (sampler_init dbs))
      as [acc|f] eqn:Hacc.
    + apply (Hcalc acc) in H; [lia | done].
    + unfold eco_calculate_load in H. rewrite Hacc in H. simpl in H.
      apply eco_sample_cpus_Fault in Hacc. congruence.
  - intros busy wall f H. by apply eco_scale_load_Fault in H.
  - intros acc Hacc. split; [by apply Hcalc|].
    rewrite eco_dbs_update_Fault. by apply Hcalc.
Qed.

Lemma tick_division_safety_witness :
  eco_dbs_update (uniform_time 100000 1000000) busy_1800 <> Fault DivideByZero.
Proof.
  apply (tick_division_safety (uniform_time 100000 1000000) busy_1800).
  vm_compute. reflexivity.
Defined.

(** C10 as stated fails in its last part: with [max = 0] and no elapsed
    wall time the division by [max] is not reached, and the load
    computation returns 0. *)
Lemma division_by_zero_counterexample :
  max (policy no_max) = 0 /\
  exists dbs1,
    eco_calculate_load (uniform_time 0 0) no_max = Ok (dbs1, 0) /\
    eco_calculate_load (uniform_time 0 0) no_max <> Fault DivideByZero.
Proof.
  split; [reflexivity|]. eexists. split; [vm_compute; reflexivity|].
  vm_compute. discriminate.
Qed.

(** ** The worked scenarios of the specification *)

(** Thresholds 80/20, step 5% of [max = 2000], factor 1, no bias: 90%
    raw usage at [cur = 1000] is a load of 45, inside the band. *)
Example scenario_in_band :
  exists dbs',
    eco_dbs_update (uniform_time 100 1000)
      (dbs_of (policy_of 500 1000 2000) default_tuners 0)
    = Ok (dbs', {| t_load := 45; t_effective_load := 45;
                   t_freq_step_khz := 100; t_requests := [];
                   t_down_count := 0 |}).
Proof. eexists. vm_compute. reflexivity. Qed.

(** The same at [cur = 1800]: a load of 81 and a request for 1900. *)
Example scenario_step_up :
  exists dbs',
    eco_dbs_update (uniform_time 100 1000)
      (dbs_of (policy_of 500 1800 2000) default_tuners 0)
    = Ok (dbs', {| t_load := 81; t_effective_load := 81;
                   t_freq_step_khz := 100;
                   t_requests :=
                     [ {| target_freq := 1900;
                          relation := CPUFREQ_RELATION_H |} ];
                   t_down_count := 0 |}).
Proof. eexists. vm_compute. reflexivity. Qed.

(** A group whose maximum is below 20 kHz has a computed step of 0 and
    steps by 1000: up to [max], down to [min]. *)
Example scenario_minimum_step :
  eco_freq_step_khz 19 5 = 1000 /\
  (eco_step_up (dbs_of (policy_of 5 10 19) default_tuners 0) 1000).2
    = [ {| target_freq := 19; relation := CPUFREQ_RELATION_H |} ] /\
  (eco_step_down (dbs_of (policy_of 5 10 19) default_tuners 0) 1000).2
    = [ {| target_freq := 5; relation := CPUFREQ_RELATION_L |} ].
Proof. repeat split. Qed.

(** * Further properties of the governor *)

Ltac solve_env :=
  repeat match goal with
  | |- Forall _ _ => constructor
  | |- env_wf _ _ => split
  | |- time_wf _ => intros ?
  end;
  try solve_concrete.

(** ** Runs of well-formed ticks *)

Lemma eco_dbs_update_total ts dbs :
  Forall (fun cpu => (cpu < length (cpu_stats dbs))%nat) (cpus (policy dbs)) ->
  max (policy dbs) <> 0 ->
  exists dbs' t, eco_dbs_update ts dbs = Ok (dbs', t).
Proof.
  intros Hmask Hmax.
  destruct (eco_sample_cpus_total ts (cpus (policy dbs)) (sampler_init dbs))
    as (acc & Hacc); [done|].
  destruct (eco_scale_load_total (policy dbs)
              (total_busy_time acc) (total_wall_time acc) Hmax)
    as (load & Hload).
  pose proof (eco_calculate_load_intro _ _ _ _ Hacc Hload) as Hcalc.
  rewrite (eco_dbs_update_of_load _ _ _ _ Hcalc).
  by destruct (tick_of_load _ _) as [dbs' t]; exists dbs', t.
Qed.

(** X1: a well-formed governor never faults over any sequence of ticks
    whose policies are well-typed with a non-zero maximum and a mask
    inside the per-CPU array; it stays well-formed, keeps its array
    length and its tunables, and leaves one trace per tick. *)
Theorem run_never_faults envs : forall dbs,
  dbs_wf dbs ->
  Forall (env_wf (length (cpu_stats dbs))) envs ->
  Forall (fun env => max (env_policy env) <> 0) envs ->
  exists dbs' traces,
    eco_run envs dbs = Ok (dbs', traces) /\
    dbs_wf dbs' /\
    length (cpu_stats dbs') = length (cpu_stats dbs) /\
    tuners dbs' = tuners dbs /\
    length traces = length envs.
Proof.
  induction envs as [|env envs IH]; intros dbs Hwf Henv Hmax.
  - exists dbs, []. split; [done|]. split; [exact Hwf|]. done.
  - apply Forall_cons in Henv as [Henv Henvs].
    apply Forall_cons in Hmax as [Hmax Hmaxs].
    destruct (eco_dbs_update_total (env_time env) (with_policy dbs (env_policy env)))
      as (dbs1 & t & Htick); [by destruct Henv | done |].
    change (eco_dbs_timer env dbs = Ok (dbs1, t)) in Htick.
    destruct (eco_dbs_timer_wf _ _ _ _ Hwf Henv Htick) as [Hwf1 Hlen1].
    destruct (eco_dbs_timer_trace _ _ _ _ Htick) as (Htun1 & _).
    destruct (IH dbs1 Hwf1) as (dbs' & traces & Hrun & Hwf' & Hlen' & Htun' & Hn);
      [by rewrite Hlen1 | done |].
    exists dbs', (t :: traces). simpl. rewrite Htick. simpl. rewrite Hrun. simpl.
    split; [done|]. split; [exact Hwf'|].
    split; [congruence|]. split; [congruence|]. by rewrite Hn.
Qed.

Lemma run_never_faults_witness :
  exists dbs' traces,
    eco_run idle_ticks debounced = Ok (dbs', traces) /\
    dbs_wf dbs' /\
    length (cpu_stats dbs') = 1%nat /\
    tuners dbs' = tuners debounced /\
    length traces = 2%nat.
Proof.
  apply (run_never_faults idle_ticks debounced).
  - solve_concrete.
  - solve_env.
  - repeat constructor; vm_compute; discriminate.
Defined.

(** ** What the sampling loop touches *)

Lemma eco_sample_cpu_inv ts cpu acc acc' :
  eco_sample_cpu ts cpu acc = Ok acc' ->
  (cpu < length (s_stats acc))%nat /\
  s_stats acc' = <[cpu := sample_stats (read_cpu_time ts cpu)]> (s_stats acc).
Proof.
  unfold eco_sample_cpu. destruct (s_stats acc !! cpu) as [st|] eqn:Hst; [|done].
  intros H. split; [by eapply lookup_lt_Some|].
  by destruct (0 <? _); injection H as <-.
Qed.

Lemma eco_sample_cpus_slots ts mask : forall acc acc',
  eco_sample_cpus ts mask acc = Ok acc' ->
  length (s_stats acc') = length (s_stats acc) /\
  (forall cpu, cpu ∉ mask -> s_stats acc' !! cpu = s_stats acc !! cpu) /\
  (forall cpu, cpu ∈ mask ->
     s_stats acc' !! cpu =
       Some {| prev_total_time := wall_time (read_cpu_time ts cpu);
               prev_busy_time :=
                 u64 (wall_time (read_cpu_time ts cpu)
                      - idle_time (read_cpu_time ts cpu)) |}).
Proof.
  induction mask as [|c mask IH]; intros acc acc' Hrun; simpl in Hrun.
  - injection Hrun as <-. split; [done|]. split; [done|].
    intros cpu Hin. by apply elem_of_nil in Hin.
  - apply bind_Ok in Hrun as (acc1 & Hone & Hrun).
    apply eco_sample_cpu_inv in Hone as [Hc Hstats].
    destruct (IH _ _ Hrun) as (Hlen & Hout & Hin).
    rewrite Hstats, length_insert in Hlen.
    split; [done|]. split.
    + intros cpu Hnotin. apply not_elem_of_cons in Hnotin as [Hne Hnotin].
      rewrite Hout, Hstats by done. by apply list_lookup_insert_ne.
    + intros cpu Hcpu. destruct (decide (cpu ∈ mask)) as [Hmem|Hnot].
      * by apply Hin.
      * apply elem_of_cons in Hcpu as [->|Hcpu]; [|done].
        rewrite Hout, Hstats by done. by apply list_lookup_insert_eq.
Qed.

(** X2: the sampling loop keeps the length of the per-CPU array, leaves
    the slot of every CPU outside the mask as it was, and stores the
    new reading, [wall_time] and [wall_time - idle_time], in the slot of
    every CPU of the mask. *)
Theorem sampling_touches_only_the_mask ts mask : forall acc acc',
  eco_sample_cpus ts mask acc = Ok acc' ->
  length (s_stats acc') = length (s_stats acc) /\
  (forall cpu, cpu ∉ mask -> s_stats acc' !! cpu = s_stats acc !! cpu) /\
  (forall cpu, cpu ∈ mask ->
     s_stats acc' !! cpu =
       Some {| prev_total_time := wall_time (read_cpu_time ts cpu);
               prev_busy_time :=
                 u64 (wall_time (read_cpu_time ts cpu)
                      - idle_time (read_cpu_time ts cpu)) |}).
Proof. exact (eco_sample_cpus_slots ts mask). Qed.

Lemma sampling_touches_only_the_mask_witness :
  exists acc',
    eco_sample_cpus long_time [1%nat]
      {| s_stats := [zero_stats; zero_stats];
         total_busy_time := 0; total_wall_time := 0 |} = Ok acc' /\
    s_stats acc' !! 0%nat = Some zero_stats /\
    s_stats acc' !! 1%nat =
      Some {| prev_total_time := 9223372036854775809;
              prev_busy_time := 9223372036854775807 |}.
Proof.
  destruct (eco_sample_cpus long_time [1%nat]
              {| s_stats := [zero_stats; zero_stats];
                 total_busy_time := 0; total_wall_time := 0 |})
    as [acc'|f] eqn:Hrun; [|vm_compute in Hrun; discriminate].
  exists acc'. split; [reflexivity|].
  destruct (sampling_touches_only_the_mask long_time [1%nat] _ _ Hrun)
    as (_ & Hout & Hin).
  split.
  - rewrite Hout; [reflexivity|]. solve_concrete.
  - rewrite Hin; [reflexivity|]. by left.
Defined.

(** ** Sampling twice *)

Lemma eco_sample_cpus_fixpoint ts mask : forall acc,
  (forall cpu, cpu ∈ mask ->
     s_stats acc !! cpu = Some (sample_stats (read_cpu_time ts cpu))) ->
  eco_sample_cpus ts mask acc = Ok acc.
Proof.
  induction mask as [|c mask IH]; intros acc Hall; simpl; [done|].
  assert (eco_sample_cpu ts c acc = Ok acc) as ->.
  { unfold eco_sample_cpu. rewrite (Hall c) by (by left).
    unfold sample_dt. simpl. rewrite Z.sub_diag.
    change (0 <? u64 0) with false. cbv iota.
    rewrite list_insert_id by (apply Hall; by left).
    by destruct acc. }
  simpl. apply IH. intros cpu Hin. apply Hall. by right.
Qed.

(** X3: sampling is idempotent.  A load computation that follows
    another one with the same readings finds no elapsed time: it returns
    load 0 and leaves the state exactly as it was. *)
Theorem resampling_adds_nothing ts dbs dbs1 load :
  eco_calculate_load ts dbs = Ok (dbs1, load) ->
  eco_calculate_load ts dbs1 = Ok (dbs1, 0).
Proof.
  intros H. apply eco_calculate_load_inv in H as (acc & Hacc & _ & ->).
  apply eco_sample_cpus_slots in Hacc as (_ & _ & Hin).
  unfold eco_calculate_load, sampler_init. simpl.
  rewrite (eco_sample_cpus_fixpoint ts (cpus (policy dbs))
             {| s_stats := s_stats acc; total_busy_time := 0;
                total_wall_time := 0 |}) by exact Hin.
  reflexivity.
Qed.

Lemma resampling_adds_nothing_witness :
  exists dbs1,
    eco_calculate_load (uniform_time 100000 1000000) busy_1800 = Ok (dbs1, 81) /\
    eco_calculate_load (uniform_time 100000 1000000) dbs1 = Ok (dbs1, 0).
Proof.
  eexists. split; [vm_compute; reflexivity|].
  apply (resampling_adds_nothing (uniform_time 100000 1000000) busy_1800 _ 81).
  vm_compute. reflexivity.
Defined.

(** ** Exact totals *)

Lemma idle_delta_sum_insert ts stats mask cpu st :
  cpu ∉ mask ->
  idle_delta_sum ts (<[cpu := st]> stats) mask = idle_delta_sum ts stats mask.
Proof.
  induction mask as [|c mask IH]; [done|]; intros Hnotin; simpl.
  rewrite not_elem_of_cons in Hnotin. destruct Hnotin as [Hne Hnotin].
  rewrite list_lookup_insert_ne by done.
  by rewrite IH.
Qed.

Lemma eco_sample_cpus_exact ts mask : forall acc,
  NoDup mask ->
  Forall (fun cpu => (cpu < length (s_stats acc))%nat) mask ->
  Forall stats_wf (s_stats acc) ->
  valid_samples ts (s_stats acc) mask ->
  0 <= total_busy_time acc <= total_wall_time acc ->
  total_wall_time acc + wall_delta_sum ts (s_stats acc) mask < U64_MOD ->
  exists acc', eco_sample_cpus ts mask acc = Ok acc' /\
    total_wall_time acc' =
      total_wall_time acc + wall_delta_sum ts (s_stats acc) mask /\
    total_busy_time acc' =
      total_busy_time acc + (wall_delta_sum ts (s_stats acc) mask
                             - idle_delta_sum ts (s_stats acc) mask).
Proof.
  induction mask as [|c mask IH]; intros acc Hnd Hlen Hwf Hv Hle Hsum; simpl.
  - exists acc. split; [done|]. split; lia.
  - apply NoDup_cons in Hnd as [Hnotin Hnd].
    apply Forall_cons in Hlen as [Hc Hlen].
    destruct (lookup_lt_is_Some_2 _ _ Hc) as [st Hst].
    simpl in Hsum. rewrite Hst in *.
    assert (stats_wf st) as Hwfst by (eapply Forall_lookup_1; eauto).
    assert (valid_sample st (read_cpu_time ts c)) as Hvs
      by (apply Hv; [by left | done]).
    destruct (valid_sample_deltas _ _ Hwfst Hvs) as [Hdt Hdb].
    assert (sample_db st (read_cpu_time ts c) =
            wall_time (read_cpu_time ts c) - prev_total_time st
            - (idle_time (read_cpu_time ts c) - prev_idle_time st)) as Hdbeq.
    { destruct Hwfst as [Ht Hb]. destruct Hvs as [Hw Hi Hwm Him Hiw].
      unfold sample_db. rewrite Hdt.
      pose proof (u64_range (prev_total_time st - prev_busy_time st)) as Hpi.
      fold (prev_idle_time st) in Hpi.
      rewrite (u64_small (idle_time _ - _)) by (mach_unfold; lia).
      apply u64_small. mach_unfold. lia. }
    assert (0 <= wall_delta_sum ts (s_stats acc) mask) as Hrest.
    { apply wall_delta_sum_nonneg; [done|].
      intros cpu st' Hin. apply Hv. by right. }
    set (r := read_cpu_time ts c) in *.
    set (stats' := <[c := sample_stats r]> (s_stats acc)).
    assert (Forall stats_wf stats') as Hwf'.
    { apply Forall_insert; [done|]. apply sample_stats_wf. by destruct Hvs. }
    assert (valid_samples ts stats' mask) as Hv'.
    { intros cpu st' Hin Hlk. apply Hv; [by right|].
      unfold stats' in Hlk. rewrite list_lookup_insert_ne in Hlk; [done|].
      intros ->. done. }
    assert (Forall (fun cpu => (cpu < length stats')%nat) mask) as Hlen'
      by (unfold stats'; by rewrite length_insert).
    assert (wall_delta_sum ts stats' mask = wall_delta_sum ts (s_stats acc) mask)
      as Hws by (by apply wall_delta_sum_insert).
    assert (idle_delta_sum ts stats' mask = idle_delta_sum ts (s_stats acc) mask)
      as His by (by apply idle_delta_sum_insert).
    unfold eco_sample_cpu. rewrite Hst. fold r. fold stats'.
    destruct (Z.ltb_spec 0 (sample_dt st r)) as [Hpos|Hzero]; simpl.
    + edestruct (IH {| s_stats := stats';
                       total_busy_time := u64 (total_busy_time acc + sample_db st r);
                       total_wall_time := u64 (total_wall_time acc + sample_dt st r) |})
        as (acc' & Hrun & Htw & Htb); simpl; try done.
      * rewrite !u64_small by (mach_unfold; lia). lia.
      * rewrite Hws, u64_small by (mach_unfold; lia). lia.
      * exists acc'. split; [done|]. rewrite Htw, Htb. simpl.
        rewrite Hws, His, !u64_small by (mach_unfold; lia). lia.
    + edestruct (IH {| s_stats := stats';
                       total_busy_time := total_busy_time acc;
                       total_wall_time := total_wall_time acc |})
        as (acc' & Hrun & Htw & Htb); simpl; try done.
      * rewrite Hws. lia.
      * exists acc'. split; [done|]. rewrite Htw, Htb. simpl.
        rewrite Hws, His. lia.
Qed.

(** X4: on valid readings whose wall deltas sum to less than 2^64 the
    loop's totals are the exact sums over the group: the wall total is
    the sum of the wall deltas, and the busy total is that sum minus the
    sum of the idle deltas. *)
Theorem sampled_totals_are_exact ts dbs :
  dbs_wf dbs ->
  valid_samples ts (cpu_stats dbs) (cpus (policy dbs)) ->
  wall_delta_sum ts (cpu_stats dbs) (cpus (policy dbs)) < U64_MOD ->
  exists acc,
    eco_sample_cpus ts (cpus (policy dbs)) (sampler_init dbs) = Ok acc /\
    total_wall_time acc = wall_delta_sum ts (cpu_stats dbs) (cpus (policy dbs)) /\
    total_busy_time acc =
      wall_delta_sum ts (cpu_stats dbs) (cpus (policy dbs))
      - idle_delta_sum ts (cpu_stats dbs) (cpus (policy dbs)).
Proof.
  intros [Hpol Htun Hdc Hst Hmask Hnd] Hvs Hsum.
  destruct (eco_sample_cpus_exact ts (cpus (policy dbs)) (sampler_init dbs))
    as (acc & Hacc & Htw & Htb); simpl; try done.
  exists acc. split; [done|]. simpl in *. split; lia.
Qed.

Lemma sampled_totals_are_exact_witness :
  exists acc,
    eco_sample_cpus (uniform_time 100000 1000000) (cpus (policy busy_1800))
      (sampler_init busy_1800) = Ok acc /\
    total_wall_time acc = 1000000 /\ total_busy_time acc = 900000.
Proof.
  apply (sampled_totals_are_exact (uniform_time 100000 1000000) busy_1800).
  - solve_concrete.
  - apply valid_samples_cons; [|apply valid_samples_nil].
    intros st [= <-]. solve_concrete.
  - vm_compute. reflexivity.
Defined.

(** ** Load against raw usage *)

(** X5: with elapsed time, [0 <= cur <= max] and [0 < max], the load
    never exceeds the raw usage, whether or not the 32-bit product
    wraps; at [cur = max] it is the raw usage when the product fits in
    32 bits. *)
Theorem load_at_most_raw_usage pol busy wall :
  0 < wall -> 0 <= cur pol <= max pol -> 0 < max pol ->
  exists load,
    eco_scale_load pol busy wall = Ok load /\
    0 <= load <= eco_raw_usage busy wall /\
    (cur pol = max pol -> eco_raw_usage busy wall * max pol < U32_MOD ->
       load = eco_raw_usage busy wall).
Proof.
  intros Hw Hc Hm.
  rewrite eco_scale_load_time, udiv_Ok by lia.
  eexists. split; [reflexivity|].
  assert (0 <= eco_raw_usage busy wall) as Hr
    by (unfold eco_raw_usage; apply u32_range).
  pose proof (u32_le (eco_raw_usage busy wall * cur pol) ltac:(nia)) as Hu.
  split; [split|].
  - apply Z.div_pos; lia.
  - apply Z.div_le_upper_bound; [done | nia].
  - intros Heq Hfit. rewrite Heq, u32_small by (mach_unfold; nia).
    apply Z.div_mul. lia.
Qed.

Lemma load_at_most_raw_usage_witness :
  exists load,
    eco_scale_load fast_policy 1000 1000 = Ok load /\
    0 <= load <= eco_raw_usage 1000 1000.
Proof.
  destruct (load_at_most_raw_usage fast_policy 1000 1000)
    as (load & Hload & Hle & _); try (vm_compute; first [reflexivity | intuition discriminate]).
  by exists load.
Defined.

(** ** The shape of a tick's requests *)

Lemma eco_step_shape dbs eff step :
  policy_wf (policy dbs) -> 0 <= eff <= 100 -> 0 < step ->
  (eco_step dbs eff step).2 = [] \/
  (exists target,
     (eco_step dbs eff step).2 =
       [ {| target_freq := target; relation := CPUFREQ_RELATION_H |} ] /\
     up_threshold (tuners dbs) < eff /\
     cur (policy dbs) < max (policy dbs) /\
     0 <= target <= max (policy dbs)) \/
  (exists target,
     (eco_step dbs eff step).2 =
       [ {| target_freq := target; relation := CPUFREQ_RELATION_L |} ] /\
     eff < down_threshold (tuners dbs) /\
     eff <= up_threshold (tuners dbs) /\
     sampling_down_factor (tuners dbs) <= u32 (down_count dbs + 1) /\
     min (policy dbs) <= target < cur (policy dbs)).
Proof.
  intros [Hc Hm Hx] He Hs.
  unfold eco_step. rewrite u32_small by (mach_unfold; lia).
  destruct (Z.ltb_spec (up_threshold (tuners dbs)) eff) as [Hup|Hup].
  - unfold eco_step_up.
    destruct (Z.ltb_spec (cur (policy dbs)) (max (policy dbs))); [|by left].
    right. left. eexists. split; [reflexivity|].
    pose proof (u32_range (cur (policy dbs) + step)).
    repeat split; try done; case_tests; mach_unfold; lia.
  - destruct (Z.ltb_spec eff (down_threshold (tuners dbs))) as [Hdn|Hdn];
      [|by left].
    unfold eco_step_down.
    destruct (Z.leb_spec (sampling_down_factor (tuners dbs))
                (u32 (down_count dbs + 1))); [|by left].
    destruct (Z.ltb_spec (min (policy dbs)) (cur (policy dbs))); [|by left].
    right. right. eexists. split; [reflexivity|].
    repeat split; try done.
    + case_tests; lia.
    + destruct (Z.ltb_spec step (cur (policy dbs))).
      * rewrite u32_small by (mach_unfold; lia). case_tests; lia.
      * case_tests; lia.
Qed.

(** X6: a tick calls the frequency driver at most once.  A call with
    [CPUFREQ_RELATION_H] only happens above [up_threshold] with
    [cur < max], and its target never exceeds [max]; a call with
    [CPUFREQ_RELATION_L] only happens below [down_threshold] (and not
    above [up_threshold]) once the debounce count is reached, and its
    target lies in [min, cur).  Neither bound depends on the absence of
    wrap-around. *)
Theorem tick_requests_shape ts dbs dbs' t :
  eco_dbs_update ts dbs = Ok (dbs', t) ->
  policy_wf (policy dbs) ->
  t_requests t = [] \/
  (exists target,
     t_requests t =
       [ {| target_freq := target; relation := CPUFREQ_RELATION_H |} ] /\
     up_threshold (tuners dbs) < t_effective_load t /\
     cur (policy dbs) < max (policy dbs) /\
     0 <= target <= max (policy dbs)) \/
  (exists target,
     t_requests t =
       [ {| target_freq := target; relation := CPUFREQ_RELATION_L |} ] /\
     t_effective_load t < down_threshold (tuners dbs) /\
     t_effective_load t <= up_threshold (tuners dbs) /\
     sampling_down_factor (tuners dbs) <= u32 (down_count dbs + 1) /\
     min (policy dbs) <= target < cur (policy dbs)).
Proof.
  intros H Hwf.
  apply eco_dbs_update_trace in H
    as (dbs1 & _ & Hp & Ht & Hd & He & Hs & Hstep & _).
  pose proof (eco_step_shape dbs1 (t_effective_load t) (t_freq_step_khz t)) as Hsh.
  rewrite Hstep, Hp, Ht, Hd in Hsh. simpl in Hsh. apply Hsh; [done | |].
  - rewrite He. apply eco_effective_load_range.
  - rewrite Hs. apply eco_freq_step_khz_range.
Qed.

Lemma tick_requests_shape_witness :
  exists dbs' t,
    eco_dbs_update (uniform_time 0 1000) near_top = Ok (dbs', t) /\
    exists target,
      t_requests t =
        [ {| target_freq := target; relation := CPUFREQ_RELATION_H |} ] /\
      0 <= target <= max (policy near_top).
Proof.
  destruct (eco_dbs_update (uniform_time 0 1000) near_top)
    as [[dbs' t]|f] eqn:Hupd; [|vm_compute in Hupd; discriminate].
  exists dbs', t. split; [reflexivity|].
  destruct (tick_requests_shape _ _ _ _ Hupd)
    as [Hnone | [(target & Hreq & _ & _ & Hle) | (target & Hreq & _)]].
  - solve_concrete.
  - vm_compute in Hupd. injection Hupd as _ <-. discriminate.
  - by exists target.
  - vm_compute in Hupd. injection Hupd as _ <-. discriminate.
Defined.

(** ** The debounce counter *)

(** X7: after every tick [down_count] is either 0, or it is the
    previous count plus one, strictly between 0 and
    [sampling_down_factor], on a tick below [down_threshold] that made no
    request.  A tick that calls the driver therefore always leaves the
    counter at 0. *)
Theorem down_count_after_tick ts dbs dbs' t :
  eco_dbs_update ts dbs = Ok (dbs', t) ->
  t_down_count t = down_count dbs' /\
  (down_count dbs' = 0 \/
   (down_count dbs' = u32 (down_count dbs + 1) /\
    0 < down_count dbs' < sampling_down_factor (tuners dbs) /\
    t_effective_load t < down_threshold (tuners dbs) /\
    t_requests t = [])).
Proof.
  intros H.
  apply eco_dbs_update_trace in H
    as (dbs1 & _ & Hp & Ht & Hd & He & _ & Hstep & Hdc).
  split; [done|].
  assert (0 <= t_effective_load t <= 100) as Hr
    by (rewrite He; apply eco_effective_load_range).
  revert Hstep. unfold eco_step. rewrite u32_small by (mach_unfold; lia).
  destruct (Z.ltb_spec (up_threshold (tuners dbs1)) (t_effective_load t)).
  { rewrite eco_step_up_eq. intros [= <- _]. by left. }
  destruct (Z.ltb_spec (t_effective_load t) (down_threshold (tuners dbs1)));
    [|intros [= <- _]; by left].
  unfold eco_step_down.
  pose proof (u32_range (down_count dbs1 + 1)) as Hu.
  destruct (Z.leb_spec (sampling_down_factor (tuners dbs1))
              (u32 (down_count dbs1 + 1))).
  { destruct (min _ <? cur _); intros [= <- _]; by left. }
  intros [= <- <-]. simpl. rewrite <- Ht, <- Hd.
  destruct (Z.eq_dec (u32 (down_count dbs1 + 1)) 0) as [Hz|Hnz]; [by left|].
  right. repeat split; try done; mach_unfold; lia.
Qed.

Lemma down_count_after_tick_witness :
  exists dbs' t,
    eco_dbs_update (uniform_time 0 0) debounced = Ok (dbs', t) /\
    t_down_count t = down_count dbs' /\ down_count dbs' = 1 /\
    t_requests t = [].
Proof.
  destruct (eco_dbs_update (uniform_time 0 0) debounced)
    as [[dbs' t]|f] eqn:Hupd; [|vm_compute in Hupd; discriminate].
  exists dbs', t. split; [reflexivity|].
  destruct (down_count_after_tick _ _ _ _ Hupd) as [Htr _].
  split; [exact Htr|].
  vm_compute in Hupd. injection Hupd as <- <-. split; reflexivity.
Defined.

(** ** What a tick reads *)

Lemma eco_sample_cpus_ext ts1 ts2 mask : forall acc,
  (forall cpu, cpu ∈ mask -> read_cpu_time ts1 cpu = read_cpu_time ts2 cpu) ->
  eco_sample_cpus ts1 mask acc = eco_sample_cpus ts2 mask acc.
Proof.
  induction mask as [|c mask IH]; intros acc Hsame; simpl; [done|].
  assert (eco_sample_cpu ts1 c acc = eco_sample_cpu ts2 c acc) as ->.
  { unfold eco_sample_cpu. by rewrite (Hsame c) by (by left). }
  destruct (eco_sample_cpu ts2 c acc) as [acc1|f]; simpl; [|done].
  apply IH. intros cpu Hin. apply Hsame. by right.
Qed.

(** X8: a tick consults the accounting only for the CPUs of the policy's
    mask, and the microsecond accounting only for those whose jiffy-based
    wall time reads 0: two time sources that agree there give the same
    tick. *)
Theorem tick_reads_only_the_mask ts1 ts2 dbs :
  (forall cpu, cpu ∈ cpus (policy dbs) ->
     get_cpu_idle_time ts1 cpu = get_cpu_idle_time ts2 cpu /\
     (wall_time (get_cpu_idle_time ts1 cpu) = 0 ->
      get_cpu_idle_time_us ts1 cpu = get_cpu_idle_time_us ts2 cpu)) ->
  eco_dbs_update ts1 dbs = eco_dbs_update ts2 dbs.
Proof.
  intros Hsame. unfold eco_dbs_update, eco_calculate_load.
  rewrite (eco_sample_cpus_ext ts1 ts2); [done|].
  intros cpu Hin. destruct (Hsame cpu Hin) as [Hprim Hus].
  unfold read_cpu_time. rewrite <- Hprim.
  destruct (Z.eqb_spec (wall_time (get_cpu_idle_time ts1 cpu)) 0); [|done].
  by apply Hus.
Qed.

Lemma tick_reads_only_the_mask_witness :
  eco_dbs_update (uniform_time 100000 1000000) busy_1800 =
  eco_dbs_update
    {| get_cpu_idle_time := fun cpu =>
         match cpu with
         | O => {| idle_time := 100000; wall_time := 1000000 |}
         | _ => {| idle_time := 7; wall_time := 9 |}
         end;
       get_cpu_idle_time_us := fun _ => {| idle_time := 1; wall_time := 2 |} |}
    busy_1800.
Proof.
  apply tick_reads_only_the_mask.
  intros cpu Hin. apply list_elem_of_singleton in Hin as ->.
  split; [reflexivity|]. simpl. discriminate.
Defined.

(** ** Monotonicity of the bias adjuster *)

(** X9: as long as the subtraction fits an [int], the effective load
    grows with the load and shrinks with the bias; it is 0 as soon as
    the bias reaches the load and 100 as soon as the load exceeds the
    bias by 100. *)
Theorem effective_load_monotone load1 load2 bias1 bias2 :
  is_u32 load1 -> is_u32 load2 -> is_s32 bias1 -> is_s32 bias2 ->
  load2 <= INT_MAX -> load2 - bias2 <= INT_MAX ->
  load1 <= load2 -> bias2 <= bias1 ->
  eco_effective_load load1 bias1 <= eco_effective_load load2 bias2 /\
  (load1 <= bias1 -> eco_effective_load load1 bias1 = 0) /\
  (100 <= load2 - bias2 -> eco_effective_load load2 bias2 = 100).
Proof.
  intros Hl1 Hl2 Hb1 Hb2 Hi Hd Hle Hbe.
  rewrite !eco_effective_load_clamp by (try done; lia).
  repeat split; lia.
Qed.

Lemma effective_load_monotone_witness :
  eco_effective_load 40 30 <= eco_effective_load 90 (-20) /\
  eco_effective_load 90 (-20) = 100.
Proof.
  destruct (effective_load_monotone 40 90 30 (-20)) as (Hle & _ & Hsat);
    [vm_compute; intuition discriminate .. |].
  split; [exact Hle|]. apply Hsat. vm_compute. discriminate.
Defined.

(** ** Frequencies that cannot wrap *)

(** X10: for a maximum frequency of at most 42949672 kHz and a step of
    at most 100 percent, with [min <= cur <= max] and [0 < max], nothing
    wraps on the frequency axis: the step is [max * freq_step / 100] (or
    1000 when that is 0), every request lies within [min, max], a
    step-up request is for [min(cur + step, max)], and on a tick with
    elapsed time and a raw usage of at most 100 the load is
    [raw_usage * cur / max]. *)
Theorem realistic_frequencies_do_not_wrap ts dbs dbs' t :
  eco_dbs_update ts dbs = Ok (dbs', t) ->
  policy_wf (policy dbs) -> valid_bounds (policy dbs) ->
  max (policy dbs) <= 42949672 ->
  0 <= freq_step (tuners dbs) <= 100 ->
  let exact := max (policy dbs) * freq_step (tuners dbs) / 100 in
  t_freq_step_khz t = (if exact =? 0 then 1000 else exact) /\
  Forall (in_bounds (policy dbs)) (t_requests t) /\
  (up_threshold (tuners dbs) < t_effective_load t ->
   cur (policy dbs) < max (policy dbs) ->
     t_requests t =
       [ {| target_freq :=
              Z.min (cur (policy dbs) + t_freq_step_khz t) (max (policy dbs));
            relation := CPUFREQ_RELATION_H |} ]) /\
  (forall acc,
     eco_sample_cpus ts (cpus (policy dbs)) (sampler_init dbs) = Ok acc ->
     0 < total_wall_time acc ->
     eco_raw_usage (total_busy_time acc) (total_wall_time acc) <= 100 ->
     t_load t =
       eco_raw_usage (total_busy_time acc) (total_wall_time acc)
       * cur (policy dbs) / max (policy dbs)).
Proof.
  intros H Hwf [Hb Hmax] Hcap Hfs exact.
  pose proof Hwf as [Hc Hm Hx].
  apply eco_dbs_update_trace in H
    as (dbs1 & Hcalc & Hp & Ht & _ & He & Hs & Hstep & _).
  assert (0 <= t_effective_load t <= 100) as Hr
    by (rewrite He; apply eco_effective_load_range).
  assert (0 <= exact <= max (policy dbs)) as Hex.
  { unfold exact. split; [apply Z.div_pos; nia|].
    apply Z.div_le_upper_bound; nia. }
  assert (t_freq_step_khz t = (if exact =? 0 then 1000 else exact)) as Hsx.
  { rewrite Hs. unfold eco_freq_step_khz.
    by rewrite u32_small by (mach_unfold; nia). }
  assert (0 < t_freq_step_khz t <= 42949672) as Hsr.
  { rewrite Hsx. destruct (Z.eqb_spec exact 0); lia. }
  split; [done|]. split; [|split].
  - pose proof (eco_step_in_bounds dbs1 (t_effective_load t) (t_freq_step_khz t))
      as Hin.
    rewrite Hstep, Hp in Hin. apply Hin; try done; mach_unfold; lia.
  - intros Hup Hlt.
    rewrite eco_step_above, eco_step_up_eq in Hstep by (rewrite ?Ht; lia).
    rewrite Hp in Hstep. injection Hstep as _ <-.
    destruct (Z.ltb_spec (cur (policy dbs)) (max (policy dbs))); [|lia].
    by rewrite u32_small by (mach_unfold; lia).
  - intros acc Hacc Hwall Hraw.
    apply eco_calculate_load_inv in Hcalc as (acc' & Hacc' & Hload & _).
    rewrite Hacc in Hacc'. injection Hacc' as <-.
    rewrite eco_scale_load_time, udiv_Ok in Hload by lia.
    injection Hload as <-.
    assert (0 <= eco_raw_usage (total_busy_time acc) (total_wall_time acc))
      by (unfold eco_raw_usage; apply u32_range).
    by rewrite u32_small by (mach_unfold; nia).
Qed.

Lemma realistic_frequencies_do_not_wrap_witness :
  exists dbs' t,
    eco_dbs_update (uniform_time 100000 1000000) busy_1800 = Ok (dbs', t) /\
    t_freq_step_khz t = 100000 /\
    Forall (in_bounds (policy busy_1800)) (t_requests t).
Proof.
  destruct (eco_dbs_update (uniform_time 100000 1000000) busy_1800)
    as [[dbs' t]|f] eqn:Hupd; [|vm_compute in Hupd; discriminate].
  exists dbs', t. split; [reflexivity|].
  destruct (realistic_frequencies_do_not_wrap _ _ _ _ Hupd)
    as (Hstep & Hin & _).
  - solve_concrete.
  - solve_concrete.
  - vm_compute. discriminate.
  - vm_compute. intuition discriminate.
  - split; [|exact Hin]. rewrite Hstep. reflexivity.
Defined.

(** ** Initialisation *)

Lemma eco_init_stats_inv ts mask : forall stats stats',
  eco_init_stats ts mask stats = Ok stats' ->
  length stats' = length stats /\
  (forall cpu, cpu ∉ mask -> stats' !! cpu = stats !! cpu) /\
  (forall cpu, cpu ∈ mask ->
     stats' !! cpu = Some (sample_stats (read_cpu_time ts cpu))).
Proof.
  induction mask as [|c mask IH]; intros stats stats' Hrun; simpl in Hrun.
  - injection Hrun as <-. split; [done|]. split; [done|].
    intros cpu Hin. by apply elem_of_nil in Hin.
  - destruct (stats !! c) as [st|] eqn:Hst; [|done].
    apply lookup_lt_Some in Hst.
    destruct (IH _ _ Hrun) as (Hlen & Hout & Hin).
    rewrite length_insert in Hlen.
    split; [done|]. split.
    + intros cpu Hnotin. apply not_elem_of_cons in Hnotin as [Hne Hnotin].
      rewrite Hout by done. by apply list_lookup_insert_ne.
    + intros cpu Hcpu. destruct (decide (cpu ∈ mask)) as [Hmem|Hnot].
      * by apply Hin.
      * apply elem_of_cons in Hcpu as [->|Hcpu]; [|done].
        rewrite Hout by done. by apply list_lookup_insert_eq.
Qed.

Lemma eco_init_inv nr_cpu_ids ts pol dbs :
  eco_init nr_cpu_ids ts pol = Ok dbs ->
  policy dbs = pol /\ tuners dbs = default_tuners /\ down_count dbs = 0 /\
  length (cpu_stats dbs) = nr_cpu_ids /\
  (forall cpu, cpu ∈ cpus pol ->
     cpu_stats dbs !! cpu =
       Some {| prev_total_time := wall_time (read_cpu_time ts cpu);
               prev_busy_time :=
                 u64 (wall_time (read_cpu_time ts cpu)
                      - idle_time (read_cpu_time ts cpu)) |}) /\
  (forall cpu, cpu ∉ cpus pol -> (cpu < nr_cpu_ids)%nat ->
     cpu_stats dbs !! cpu =
       Some {| prev_total_time := 0; prev_busy_time := 0 |}).
Proof.
  unfold eco_init. intros H.
  apply bind_Ok in H as (stats & Hstats & H). injection H as <-. simpl.
  apply eco_init_stats_inv in Hstats as (Hlen & Hout & Hin).
  rewrite length_replicate in Hlen.
  repeat split; try done.
  intros cpu Hnotin Hlt. rewrite Hout by done.
  by apply lookup_replicate_2.
Qed.

(** X11: a successful [eco_init] yields the default tunables, a zero
    debounce counter and an array of [nr_cpu_ids] slots in which every
    CPU of the policy holds the first reading ([wall_time] and
    [wall_time - idle_time]) and every other slot is zero. *)
Theorem eco_init_seeds_the_mask nr_cpu_ids ts pol dbs :
  eco_init nr_cpu_ids ts pol = Ok dbs ->
  policy dbs = pol /\ tuners dbs = default_tuners /\ down_count dbs = 0 /\
  length (cpu_stats dbs) = nr_cpu_ids /\
  (forall cpu, cpu ∈ cpus pol ->
     cpu_stats dbs !! cpu =
       Some {| prev_total_time := wall_time (read_cpu_time ts cpu);
               prev_busy_time :=
                 u64 (wall_time (read_cpu_time ts cpu)
                      - idle_time (read_cpu_time ts cpu)) |}) /\
  (forall cpu, cpu ∉ cpus pol -> (cpu < nr_cpu_ids)%nat ->
     cpu_stats dbs !! cpu =
       Some {| prev_total_time := 0; prev_busy_time := 0 |}).
Proof. exact (eco_init_inv nr_cpu_ids ts pol dbs). Qed.

Lemma eco_init_seeds_the_mask_witness :
  exists dbs,
    eco_init 4 (uniform_time 100000 1000000) (policy_of 800000 1800000 2000000)
      = Ok dbs /\
    length (cpu_stats dbs) = 4%nat /\
    cpu_stats dbs !! 0%nat =
      Some {| prev_total_time := 1000000; prev_busy_time := 900000 |} /\
    cpu_stats dbs !! 3%nat = Some zero_stats.
Proof.
  destruct (eco_init 4 (uniform_time 100000 1000000)
              (policy_of 800000 1800000 2000000))
    as [dbs|f] eqn:Hinit; [|vm_compute in Hinit; discriminate].
  exists dbs. split; [reflexivity|].
  destruct (eco_init_seeds_the_mask _ _ _ _ Hinit)
    as (_ & _ & _ & Hlen & Hin & Hout).
  split; [exact Hlen|]. split.
  - rewrite Hin; [reflexivity | by left].
  - rewrite Hout; [reflexivity | simpl; solve_concrete | lia].
Defined.

(** X12: the first tick after [eco_init], taken before the counters
    have moved, sees no elapsed time: the load and the effective load
    are 0, the state is left as it was, and since the default
    [sampling_down_factor] is 1 a step-down to [max(min, cur - step)] is
    requested at once whenever [cur > min]. *)
Theorem first_tick_after_init nr_cpu_ids ts pol dbs :
  eco_init nr_cpu_ids ts pol = Ok dbs ->
  policy_wf pol ->
  exists t,
    eco_dbs_update ts dbs = Ok (dbs, t) /\
    t_load t = 0 /\ t_effective_load t = 0 /\ t_down_count t = 0 /\
    t_requests t =
      if min pol <? cur pol then
        [ {| target_freq := Z.max (min pol) (cur pol - t_freq_step_khz t);
             relation := CPUFREQ_RELATION_L |} ]
      else [].
Proof.
  intros Hinit [Hc Hm Hx].
  destruct (eco_init_inv _ _ _ _ Hinit)
    as (Hp & Ht & Hd & _ & Hin & _).
  assert (eco_calculate_load ts dbs = Ok (dbs, 0)) as Hcalc.
  { unfold eco_calculate_load.
    rewrite eco_sample_cpus_fixpoint by (rewrite Hp; exact Hin).
    simpl. by destruct dbs. }
  rewrite (eco_dbs_update_of_load _ _ _ _ Hcalc).
  unfold tick_of_load. rewrite Ht, Hp.
  change (eco_effective_load 0 (powersave_bias default_tuners)) with 0.
  set (step := eco_freq_step_khz (max pol) (freq_step default_tuners)).
  assert (0 < step) as Hstep by apply eco_freq_step_khz_range.
  assert (eco_step dbs 0 step = eco_step_down dbs step) as ->.
  { apply eco_step_below; rewrite ?Ht; vm_compute; intuition discriminate. }
  assert (sampling_down_factor (tuners dbs) <= u32 (down_count dbs + 1)) as Hfire.
  { rewrite Ht, Hd. vm_compute. discriminate. }
  rewrite (eco_step_down_fired dbs step Hfire)
    by (rewrite ?Hp; assumption).
  rewrite Hp.
  assert (with_down_count dbs 0 = dbs) as ->.
  { destruct dbs. simpl in Hd. by rewrite Hd. }
  eexists. split; [reflexivity|]. simpl. by rewrite Hd.
Qed.

Lemma first_tick_after_init_witness :
  exists dbs t,
    eco_init 4 (uniform_time 100000 1000000) (policy_of 800000 1800000 2000000)
      = Ok dbs /\
    eco_dbs_update (uniform_time 100000 1000000) dbs = Ok (dbs, t) /\
    t_load t = 0 /\
    t_requests t =
      [ {| target_freq := 1700000; relation := CPUFREQ_RELATION_L |} ].
Proof.
  destruct (eco_init 4 (uniform_time 100000 1000000)
              (policy_of 800000 1800000 2000000))
    as [dbs|f] eqn:Hinit; [|vm_compute in Hinit; discriminate].
  destruct (first_tick_after_init _ _ _ _ Hinit) as (t & Hupd & Hload & _ & _ & Hreq);
    [solve_concrete|].
  exists dbs, t. split; [reflexivity|]. split; [exact Hupd|].
  split; [exact Hload|].
  vm_compute in Hinit. injection Hinit as <-.
  vm_compute in Hupd. injection Hupd as <-. reflexivity.
Defined.

(** ** The shipped configuration *)

Lemma eco_step_small_factor dbs eff step :
  sampling_down_factor (tuners dbs) <= 1 ->
  down_count (eco_step dbs eff step).1 = 0.
Proof.
  intros Hf. unfold eco_step, eco_step_up, eco_step_down, eco_hold.
  pose proof (u32_range (down_count dbs + 1)) as Hu.
  case_tests; simpl; try done; mach_unfold; lia.
Qed.

Lemma eco_run_default_tuners envs : forall dbs dbs' traces,
  tuners dbs = default_tuners -> down_count dbs = 0 ->
  Forall (fun env => policy_wf (env_policy env)) envs ->
  eco_run envs dbs = Ok (dbs', traces) ->
  tuners dbs' = default_tuners /\ down_count dbs' = 0 /\
  Forall2 (fun env t =>
    t_down_count t = 0 /\
    (t_effective_load t < DEF_DOWN_THRESHOLD ->
     min (env_policy env) < cur (env_policy env) ->
     t_requests t =
       [ {| target_freq :=
              Z.max (min (env_policy env))
                    (cur (env_policy env) - t_freq_step_khz t);
            relation := CPUFREQ_RELATION_L |} ])) envs traces.
Proof.
  induction envs as [|env envs IH]; intros dbs dbs' traces Hdef Hcount Hwf Hrun.
  - simpl in Hrun. injection Hrun as <- <-. split; [done|]. split; [done|].
    constructor.
  - apply eco_run_cons in Hrun as (dbs1 & t & traces' & Ht & Hr & ->).
    apply Forall_cons in Hwf as [[Hc Hm _] Hwfs].
    apply eco_dbs_timer_trace in Ht
      as (Htun & _ & Heff & Hstep & Hdc & dbs0 & Hp0 & Htun0 & Hdc0 & Hs).
    rewrite Hdef in Htun, Htun0. rewrite Hcount in Hdc0.
    assert (down_count dbs1 = 0) as Hzero.
    { pose proof (eco_step_small_factor dbs0 (t_effective_load t)
                    (t_freq_step_khz t)) as Hsm.
      rewrite Hs, Htun0 in Hsm. apply Hsm. vm_compute. discriminate. }
    destruct (IH dbs1 dbs' traces' Htun Hzero Hwfs Hr) as (Htun' & Hdc' & Hall).
    split; [done|]. split; [done|].
    constructor; [|done]. split; [congruence|].
    intros Hlow Hgt. unfold DEF_DOWN_THRESHOLD in Hlow.
    assert (eco_step dbs0 (t_effective_load t) (t_freq_step_khz t)
            = eco_step_down dbs0 (t_freq_step_khz t)) as Hbelow.
    { apply eco_step_below; rewrite ?Htun0; [done | |].
      - change (up_threshold default_tuners) with 80. lia.
      - change (down_threshold default_tuners) with 20. lia. }
    rewrite Hbelow in Hs.
    assert (sampling_down_factor (tuners dbs0) <= u32 (down_count dbs0 + 1))
      as Hfire.
    { rewrite Htun0, Hdc0. vm_compute. discriminate. }
    rewrite (eco_step_down_fired dbs0 (t_freq_step_khz t) Hfire) in Hs
      by (rewrite ?Hp0; assumption).
    rewrite Hp0 in Hs.
    destruct (Z.ltb_spec (min (env_policy env)) (cur (env_policy env))); [|lia].
    by injection Hs as _ <-.
Qed.

Lemma eco_init_tuners nr_cpu_ids ts pol dbs :
  eco_init nr_cpu_ids ts pol = Ok dbs ->
  tuners dbs = default_tuners /\ down_count dbs = 0.
Proof.
  unfold eco_init. intros H.
  apply bind_Ok in H as (stats & _ & H). by injection H as <-.
Qed.

(** X13: the module never writes its tunables after [eco_init], so over
    any run the tunables are the defaults; with the default
    [sampling_down_factor] of 1 the debounce counter is 0 after every
    tick, and every tick whose effective load is below 20 on a policy
    with [cur > min] requests a step-down to [max(min, cur - step)] at
    once. *)
Theorem shipped_tunables_disable_debounce nr_cpu_ids ts pol dbs envs dbs' traces :
  eco_init nr_cpu_ids ts pol = Ok dbs ->
  Forall (fun env => policy_wf (env_policy env)) envs ->
  eco_run envs dbs = Ok (dbs', traces) ->
  tuners dbs' = default_tuners /\ down_count dbs' = 0 /\
  Forall2 (fun env t =>
    t_down_count t = 0 /\
    (t_effective_load t < DEF_DOWN_THRESHOLD ->
     min (env_policy env) < cur (env_policy env) ->
     t_requests t =
       [ {| target_freq :=
              Z.max (min (env_policy env))
                    (cur (env_policy env) - t_freq_step_khz t);
            relation := CPUFREQ_RELATION_L |} ])) envs traces.
Proof.
  intros Hinit Hwf Hrun.
  destruct (eco_init_tuners _ _ _ _ Hinit) as [Htun Hdc].
  by apply (eco_run_default_tuners envs dbs dbs' traces).
Qed.

Lemma shipped_tunables_disable_debounce_witness :
  exists dbs dbs' traces,
    eco_init 1 (uniform_time 0 0) (policy_of 800000 1800000 2000000) = Ok dbs /\
    eco_run (idle_ticks ++ [idle_tick_3]) dbs = Ok (dbs', traces) /\
    tuners dbs' = default_tuners /\ down_count dbs' = 0.
Proof.
  destruct (eco_init 1 (uniform_time 0 0) (policy_of 800000 1800000 2000000))
    as [dbs|f] eqn:Hinit; [|vm_compute in Hinit; discriminate].
  destruct (eco_run (idle_ticks ++ [idle_tick_3]) dbs)
    as [[dbs' traces]|f] eqn:Hrun;
    [|vm_compute in Hinit; injection Hinit as <-; vm_compute in Hrun; discriminate].
  exists dbs, dbs', traces. split; [reflexivity|]. split; [exact Hrun|].
  assert (Forall (fun env => policy_wf (env_policy env))
            (idle_ticks ++ [idle_tick_3])) as Hwf
    by (unfold idle_ticks; simpl; solve_env).
  destruct (shipped_tunables_disable_debounce _ _ _ _ _ _ _ Hinit Hwf Hrun)
    as (Htun & Hdc & _).
  split; [exact Htun | exact Hdc].
Defined.

(** ** The delayed work *)

(** X14: the work re-arms itself after every update.  A sequence of
    expiries performs the ticks of [eco_run] on the governor state, and
    after at least one expiry the work is pending again with the
    sampling rate the governor started with, which no tick changes. *)
Theorem timer_rearms_itself envs : forall g g' traces,
  eco_work_run envs g = Ok (g', traces) ->
  eco_run envs (gd_dbs g) = Ok (gd_dbs g', traces) /\
  tuners (gd_dbs g') = tuners (gd_dbs g) /\
  (envs <> [] ->
   gd_work g' = Some (sampling_rate (tuners (gd_dbs g)))).
Proof.
  induction envs as [|env envs IH]; intros g g' traces Hrun; simpl in Hrun.
  - injection Hrun as <- <-. by repeat split.
  - apply bind_Ok in Hrun as ([g1 t] & Hone & Hrun).
    apply bind_Ok in Hrun as ([g2 traces'] & Hrest & Hrun).
    injection Hrun as <- <-.
    unfold eco_dbs_timer_work in Hone.
    apply bind_Ok in Hone as ([dbs1 t1] & Htick & Hone).
    injection Hone as <- <-.
    destruct (eco_dbs_timer_trace _ _ _ _ Htick) as (Htun & _).
    destruct (IH _ _ _ Hrest) as (Hruns & Htuns & Hwork). simpl in *.
    rewrite Htick. simpl. rewrite Hruns. simpl.
    split; [done|]. split; [congruence|].
    intros _. destruct envs as [|env' envs'].
    + simpl in Hrest. injection Hrest as <- _. simpl. by rewrite Htun.
    + rewrite Hwork by done. by rewrite Htun.
Qed.

Lemma timer_rearms_itself_witness :
  exists g' traces,
    eco_work_run idle_ticks {| gd_dbs := debounced; gd_work := Some 10000 |}
      = Ok (g', traces) /\
    gd_work g' = Some 10000 /\ length traces = 2%nat.
Proof.
  destruct (eco_work_run idle_ticks {| gd_dbs := debounced; gd_work := Some 10000 |})
    as [[g' traces]|f] eqn:Hrun; [|vm_compute in Hrun; discriminate].
  exists g', traces. split; [reflexivity|].
  destruct (timer_rearms_itself _ _ _ _ Hrun) as (_ & _ & Hwork).
  split; [by apply Hwork|].
  vm_compute in Hrun. by injection Hrun as _ <-.
Defined.

(** ** Start, stop and exit *)

(** X15: a policy without governor data cannot be started: after an
    [eco_init] whose allocation was refused, which returns [-ENOMEM] and
    leaves the policy as it was, and after [eco_exit], [eco_start]
    returns [-EINVAL] and arms nothing.  After a successful [eco_init],
    [eco_start] arms the work with the default sampling rate, a second
    [eco_start] changes nothing, [eco_stop] disarms it and keeps the
    state, and [eco_exit] is idempotent. *)
Theorem start_needs_governor_data nr_cpu_ids ts pol :
  (forall dbs_alloc stats_alloc,
     dbs_alloc && stats_alloc = false ->
     eco_init_policy dbs_alloc stats_alloc nr_cpu_ids ts pol None
       = Ok (RET_NEG ENOMEM, None) /\
     eco_start None = (RET_NEG EINVAL, None)) /\
  (forall gd, eco_start (eco_exit gd) = (RET_NEG EINVAL, None) /\
              eco_exit (eco_exit gd) = eco_exit gd /\
              eco_exit (eco_stop gd) = eco_exit gd) /\
  (forall gd,
     eco_init_policy true true nr_cpu_ids ts pol None = Ok (RET_OK, gd) ->
     exists dbs,
       eco_init nr_cpu_ids ts pol = Ok dbs /\
       gd = Some {| gd_dbs := dbs; gd_work := None |} /\
       eco_start gd =
         (RET_OK, Some {| gd_dbs := dbs; gd_work := Some DEF_SAMPLING_RATE |}) /\
       eco_start (eco_start gd).2 = eco_start gd /\
       eco_stop (eco_start gd).2 = gd).
Proof.
  split; [|split].
  - intros [|] [|] H; try discriminate; by split.
  - intros [g|]; by repeat split.
  - intros gd H. unfold eco_init_policy in H. simpl in H.
    apply bind_Ok in H as (dbs & Hinit & H). injection H as <-.
    exists dbs. split; [done|]. split; [done|].
    destruct (eco_init_tuners _ _ _ _ Hinit) as [Htun _].
    unfold eco_start, eco_stop. simpl. rewrite Htun. by repeat split.
Qed.

Lemma start_needs_governor_data_witness :
  eco_init_policy true false 4 (uniform_time 0 0)
    (policy_of 800000 1800000 2000000) None = Ok (RET_NEG ENOMEM, None) /\
  eco_start None = (RET_NEG EINVAL, None).
Proof.
  apply (start_needs_governor_data 4 (uniform_time 0 0)
           (policy_of 800000 1800000 2000000)).
  reflexivity.
Defined.

(** ** Thresholds at the ends of the scale *)

(** X16: the effective load never exceeds 100 and is never negative, so
    an [up_threshold] of 100 or more switches step-up off and a
    [down_threshold] of 0 switches step-down off: no tick then calls the
    driver with [CPUFREQ_RELATION_H], respectively
    [CPUFREQ_RELATION_L]. *)
Theorem extreme_thresholds_switch_off ts dbs dbs' t :
  eco_dbs_update ts dbs = Ok (dbs', t) ->
  policy_wf (policy dbs) ->
  (100 <= up_threshold (tuners dbs) ->
     Forall (fun r => relation r = CPUFREQ_RELATION_L) (t_requests t)) /\
  (down_threshold (tuners dbs) <= 0 ->
     Forall (fun r => relation r = CPUFREQ_RELATION_H) (t_requests t)) /\
  (100 <= up_threshold (tuners dbs) -> down_threshold (tuners dbs) <= 0 ->
     t_requests t = [] /\ down_count dbs' = 0).
Proof.
  intros H Hwf.
  pose proof H as Htr.
  apply eco_dbs_update_trace in Htr
    as (dbs1 & _ & Hp & Ht & Hd & He & Hs & Hstep & _).
  assert (0 <= t_effective_load t <= 100) as Hr
    by (rewrite He; apply eco_effective_load_range).
  pose proof (eco_step_shape dbs1 (t_effective_load t) (t_freq_step_khz t)) as Hsh.
  rewrite Hstep, Hp, Ht, Hd in Hsh. simpl in Hsh.
  destruct Hsh as [Hnone | [(target & Hreq & Hup & _) | (target & Hreq & Hdn & _)]];
    try done.
  { rewrite Hs. apply eco_freq_step_khz_range. }
  - rewrite Hnone. repeat split; try constructor.
    revert Hstep. rewrite eco_step_between by (rewrite ?Ht; lia).
    by intros [= <- _].
  - rewrite Hreq. repeat split; intros; try lia; by repeat constructor.
  - rewrite Hreq. repeat split; intros; try lia; by repeat constructor.
Qed.

Lemma extreme_thresholds_switch_off_witness :
  exists dbs' t,
    eco_dbs_update (uniform_time 0 1000000)
      (dbs_of (policy_of 800000 1800000 2000000)
         {| up_threshold := 100; down_threshold := 0; freq_step := 5;
            sampling_rate := 10000; sampling_down_factor := 1;
            powersave_bias := -100 |} 3) = Ok (dbs', t) /\
    t_effective_load t = 100 /\ t_requests t = [] /\ down_count dbs' = 0.
Proof.
  destruct (eco_dbs_update (uniform_time 0 1000000)
      (dbs_of (policy_of 800000 1800000 2000000)
         {| up_threshold := 100; down_threshold := 0; freq_step := 5;
            sampling_rate := 10000; sampling_down_factor := 1;
            powersave_bias := -100 |} 3))
    as [[dbs' t]|f] eqn:Hupd; [|vm_compute in Hupd; discriminate].
  exists dbs', t. split; [reflexivity|].
  destruct (extreme_thresholds_switch_off _ _ _ _ Hupd) as (_ & _ & Hoff);
    [solve_concrete|].
  split; [vm_compute in Hupd; by injection Hupd as _ <-|].
  apply Hoff; vm_compute; discriminate.
Defined.
